(** * Schema-adaptive CSV ingestion scripts: model and properties

    The repository holds four stand-alone scripts (SQLite, PostgreSQL,
    MongoDB, DuckDB).  Each one reads a CSV file, derives column or field
    names from the header, loads the rows into its store and answers one
    count query on a column found by a name heuristic.

    Conventions of the embedding:
    - a Python [str] is a Rocq [string] whose characters are the code
      points U+0000 to U+00FF;
    - a parsed CSV file is the list of its records, the header first
      ([csv.reader] yields one list of fields per record);
    - code that talks to a store is written in a small state-and-exception
      monad over a model of the connection; every driver call is appended
      to a log kept in the connection. *)

From Stdlib Require Import Ascii String List Bool Arith ZArith Lia.
Import ListNotations.
Open Scope list_scope.
Open Scope string_scope.
Open Scope nat_scope.

(** ** Python string operations *)

Module Str.

(** [str.lower] on one code point below U+0100: the Latin capital letters
    A..Z and U+00C0..U+00DE (U+00D7, the multiplication sign, excepted) move
    up by 32; everything else is left alone. *)
Definition lower_char (c : ascii) : ascii :=
  let n := nat_of_ascii c in
  if ((65 <=? n) && (n <=? 90))
     || ((192 <=? n) && (n <=? 222) && negb (n =? 215))
  then ascii_of_nat (n + 32)
  else c.

Fixpoint map_chars (f : ascii -> ascii) (s : string) : string :=
  match s with
  | EmptyString => EmptyString
  | String c r => String (f c) (map_chars f r)
  end.

Definition lower (s : string) : string := map_chars lower_char s.

(** [s.replace(old, new)] for one-character [old] and [new]. *)
Definition replace_char (old new : ascii) (s : string) : string :=
  map_chars (fun c => if Ascii.eqb c old then new else c) s.

(** [s.startswith(p)] *)
Fixpoint startswith (p s : string) : bool :=
  match p, s with
  | EmptyString, _ => true
  | String a p', String b s' => Ascii.eqb a b && startswith p' s'
  | String _ _, EmptyString => false
  end.

(** [sub in s] *)
Fixpoint contains (sub s : string) : bool :=
  startswith sub s
  || match s with
     | EmptyString => false
     | String _ r => contains sub r
     end.

(** [s.endswith(p)] *)
Definition endswith (p s : string) : bool :=
  (String.length p <=? String.length s)
  && String.eqb (String.substring (String.length s - String.length p)
                                  (String.length p) s) p.

(** [x in xs] for a list of strings *)
Definition mem (x : string) (xs : list string) : bool :=
  existsb (String.eqb x) xs.

(** [sep.join(xs)] *)
Fixpoint join (sep : string) (xs : list string) : string :=
  match xs with
  | [] => ""
  | [x] => x
  | x :: r => x ++ sep ++ join sep r
  end.

(** Truthiness of a [str]: only the empty string is falsy. *)
Definition truthy (s : string) : bool :=
  match s with EmptyString => false | _ => true end.

(** Code points below U+0100 that [str.isspace] accepts. *)
Definition isspace (c : ascii) : bool :=
  let n := nat_of_ascii c in
  ((9 <=? n) && (n <=? 13)) || ((28 <=? n) && (n <=? 32))
  || (n =? 133) || (n =? 160).

End Str.

(** ** Exceptions and the state-and-exception monad *)

(** The exceptions the modelled calls can raise, named by what went wrong;
    the scripts catch them all as [Exception]. *)
Inductive exn : Type :=
| StopIteration      (* next() on an exhausted csv.reader *)
| BindingMismatch    (* bound values and placeholders differ in number:
                        sqlite3.ProgrammingError; IndexError or TypeError
                        in psycopg2 *)
| StatementRefused   (* the engine refuses a statement *)
| EmptyInsert        (* pymongo's InvalidOperation: insert_many([]) *)
| DuplicateKey.      (* pymongo's BulkWriteError: an _id already stored *)

Inductive result (A : Type) : Type :=
| Ok (a : A)
| Raise (e : exn).
Arguments Ok {A} a.
Arguments Raise {A} e.

(** A computation over a connection of type [S]; an exception leaves the
    connection as it was when the exception was raised. *)
Definition M (S A : Type) : Type := S -> result A * S.

Definition ret {S A} (a : A) : M S A := fun s => (Ok a, s).

Definition bind {S A B} (m : M S A) (k : A -> M S B) : M S B :=
  fun s => match m s with
           | (Ok a, s') => k a s'
           | (Raise e, s') => (Raise e, s')
           end.

Definition raise {S A} (e : exn) : M S A := fun s => (Raise e, s).

(** [try: m  except Exception as e: h e] *)
Definition try_except {S A} (m : M S A) (h : exn -> M S A) : M S A :=
  fun s => match m s with
           | (Ok a, s') => (Ok a, s')
           | (Raise e, s') => h e s'
           end.

(** Lifting of a pure computation that may raise. *)
Definition lift {S A} (r : result A) : M S A := fun s => (r, s).

Declare Scope monad_scope.
Delimit Scope monad_scope with monad.
Notation "x <- m ;; k" := (bind m (fun x => k))
  (at level 61, m at next level, right associativity) : monad_scope.
Notation "m ;; k" := (bind m (fun _ => k))
  (at level 61, right associativity) : monad_scope.
Open Scope monad_scope.

(** ** The source file *)

(** What [csv.reader] yields for a file: its records, the header first. *)
Definition csv : Type := list (list string).

(** [header = next(csv_reader)]: the first record and the rest of the
    stream, or [StopIteration] on a file without any record. *)
Definition next_record (f : csv) : result (list string * csv) :=
  match f with
  | [] => Raise StopIteration
  | header :: rest => Ok (header, rest)
  end.

(** The double-quote character, as a one-character string. *)
Definition dq : string := String (ascii_of_nat 34) EmptyString.

Definition quoted (name : string) : string := dq ++ name ++ dq.

(** ** A relational connection (sqlite3 and psycopg2)

    The engine is outside the repository.  The model keeps what the
    scripts' control flow can observe: one table [utenti] with named
    columns, rows written inside a transaction until a commit, and the
    failures a statement can meet (a column name declared twice, a table
    that is missing or already there, a transaction begun while rows
    wait for a commit, an insert that names no column, a number of bound
    values different from the number of placeholders).
    Statement texts are logged as the scripts build them; identifiers are
    taken as the scripts pass them, so the model speaks for names that the
    engine reads as one plain identifier, and it knows no object other
    than the table and no limit on what a column holds. *)

Module Rel.

Inductive sqlvalue : Type :=
| SNull
| SInt (n : nat)
| SText (s : string).

(** A stored row: column name and value, in column order. *)
Definition row : Type := list (string * sqlvalue).

Record table : Type := mkTable {
  columns : list string;
  committed : list row;
  pending : list row      (* written since the last commit *)
}.

Inductive call : Type :=
| Execute (sql : string) (params : list string)
| Commit
| Rollback.

Record conn : Type := mkConn {
  utenti : option table;
  log : list call
}.

Definition logged (c : call) (k : conn) : conn :=
  mkConn (utenti k) (log k ++ [c]).

(** Rows the connection sees: committed ones and its own pending ones. *)
Definition visible (t : table) : list row := committed t ++ pending t.

Fixpoint has_dup (xs : list string) : bool :=
  match xs with
  | [] => false
  | x :: r => Str.mem x r || has_dup r
  end.

(** [cursor.execute("DROP TABLE IF EXISTS utenti;")] *)
Definition execute_drop (sql : string) : M conn unit :=
  fun k => (Ok tt, mkConn None (log k ++ [Execute sql []])).

(** [cursor.execute(create_sql)] with the declared column names, the key
    column first.  Column names are compared without regard to case. *)
Definition execute_create (sql : string) (cols : list string) : M conn unit :=
  fun k =>
    let k' := logged (Execute sql []) k in
    match utenti k with
    | Some _ => (Raise StatementRefused, k')
    | None =>
        if has_dup (map Str.lower cols) then (Raise StatementRefused, k')
        else (Ok tt, mkConn (Some (mkTable cols [] [])) (log k'))
    end.

(** [conn.execute("BEGIN TRANSACTION")].  The engine refuses to begin a
    transaction inside another one, and rows written since the last commit
    mean that one is open. *)
Definition execute_begin (sql : string) : M conn unit :=
  fun k =>
    let k' := logged (Execute sql []) k in
    match utenti k with
    | Some t =>
        match pending t with
        | [] => (Ok tt, k')
        | _ :: _ => (Raise StatementRefused, k')
        end
    | None => (Ok tt, k')
    end.

(** Whether the engine can prepare an insert that names [cols] and has
    [nph] placeholders; an insert without any column is a syntax error. *)
Definition prepares (cols : list string) (nph : nat) (k : conn) : bool :=
  match utenti k with
  | None => false
  | Some t =>
      negb (length cols =? 0) && (length cols =? nph)
      && forallb (fun c => Str.mem c (columns t)) cols
  end.

(** The table with one more pending row; the key column takes the next
    integer. *)
Definition with_row (cols : list string) (params : list string)
    (t : option table) : option table :=
  match t with
  | None => None
  | Some t =>
      let r := ("id", SInt (S (length (visible t))))
                 :: combine cols (map SText params) in
      Some (mkTable (columns t) (committed t) (pending t ++ [r]))
  end.

(** sqlite3's [cursor.execute(insert_sql, row)]: [cols] are the columns
    the statement names, [nph] its number of placeholders, [params] the
    values bound.  The statement is prepared, then the values are bound. *)
Definition execute_insert (sql : string) (cols : list string) (nph : nat)
    (params : list string) : M conn unit :=
  fun k =>
    let k' := logged (Execute sql params) k in
    if negb (prepares cols nph k) then (Raise StatementRefused, k')
    else if negb (length params =? nph) then (Raise BindingMismatch, k')
    else (Ok tt, mkConn (with_row cols params (utenti k)) (log k')).

(** psycopg2's [cursor.execute(insert_sql, row)]: the driver puts the
    values in place of the placeholders itself, then sends the statement. *)
Definition execute_insert_formatted (sql : string) (cols : list string)
    (nph : nat) (params : list string) : M conn unit :=
  fun k =>
    let k' := logged (Execute sql params) k in
    if negb (length params =? nph) then (Raise BindingMismatch, k')
    else if negb (prepares cols nph k) then (Raise StatementRefused, k')
    else (Ok tt, mkConn (with_row cols params (utenti k)) (log k')).

(** [conn.commit()] *)
Definition commit : M conn unit :=
  fun k =>
    let t' := match utenti k with
              | Some t => Some (mkTable (columns t) (visible t) [])
              | None => None
              end in
    (Ok tt, mkConn t' (log k ++ [Commit])).

(** [conn.rollback()] *)
Definition rollback : M conn unit :=
  fun k =>
    let t' := match utenti k with
              | Some t => Some (mkTable (columns t) (committed t) [])
              | None => None
              end in
    (Ok tt, mkConn t' (log k ++ [Rollback])).

(** The column names of [utenti] as a catalogue query returns them
    ([PRAGMA table_info], [information_schema.columns]); no row when the
    table does not exist. *)
Definition execute_columns (sql : string) : M conn (list string) :=
  fun k =>
    let cols := match utenti k with
                | Some t => columns t
                | None => []
                end in
    (Ok cols, logged (Execute sql []) k).

Fixpoint lookup (col : string) (r : row) : option sqlvalue :=
  match r with
  | [] => None
  | (c, v) :: rest => if String.eqb c col then Some v else lookup col rest
  end.

(** The count query on [utenti] with one [LIKE] condition on column
    [col], the pattern given as a test on text.  An integer or NULL value
    matches none of the patterns the scripts use. *)
Definition execute_count (sql : string) (col : string)
    (like : string -> bool) : M conn nat :=
  fun k =>
    let k' := logged (Execute sql []) k in
    match utenti k with
    | None => (Raise StatementRefused, k')
    | Some t =>
        let hit (r : row) := match lookup col r with
                             | Some (SText s) => like s
                             | _ => false
                             end in
        (Ok (length (filter hit (visible t))), k')
    end.

End Rel.

(** ** sqlite_script.py *)

Module Sqlite.
Import Rel.

Definition RESERVED_WORDS : list string := [
  "abort"; "action"; "add"; "after"; "all"; "alter"; "analyze"; "and"; "as"; "asc";
  "attach"; "autoincrement"; "before"; "begin"; "between"; "by"; "cascade"; "case";
  "cast"; "check"; "collate"; "column"; "commit"; "conflict"; "constraint"; "create";
  "cross"; "current_date"; "current_time"; "current_timestamp"; "database"; "default";
  "deferrable"; "deferred"; "delete"; "desc"; "detach"; "distinct"; "drop"; "each";
  "else"; "end"; "escape"; "except"; "exclusive"; "exists"; "explain"; "fail"; "for";
  "foreign"; "from"; "full"; "glob"; "group"; "having"; "if"; "ignore"; "immediate";
  "in"; "index"; "indexed"; "initially"; "inner"; "insert"; "instead"; "intersect";
  "into"; "is"; "isnull"; "join"; "key"; "left"; "like"; "limit"; "match"; "natural";
  "no"; "not"; "notnull"; "null"; "of"; "offset"; "on"; "or"; "order"; "outer"; "plan";
  "pragma"; "primary"; "query"; "raise"; "recursive"; "references"; "regexp"; "reindex";
  "release"; "rename"; "replace"; "restrict"; "right"; "rollback"; "row"; "savepoint";
  "select"; "set"; "table"; "temp"; "temporary"; "then"; "to"; "transaction"; "trigger";
  "union"; "unique"; "update"; "using"; "vacuum"; "values"; "view"; "virtual"; "when";
  "where"; "with"; "without"
].

(** [get_csv_column_count]: the length of the header. *)
Definition get_csv_column_count (csv_file : csv) : result nat :=
  match next_record csv_file with
  | Ok (header, _) => Ok (length header)
  | Raise e => Raise e
  end.

(** The first step of the loop body of [create_table] and of
    [load_csv_to_database]: [col_name.lower().replace(' ', '_')]. *)
Definition lower_replace (col_name : string) : string :=
  Str.replace_char " " "_" (Str.lower col_name).

(** [safe_col_name.lower() in [w.lower() for w in RESERVED_WORDS]] *)
Definition is_reserved (safe_col_name : string) : bool :=
  Str.mem (Str.lower safe_col_name) (map Str.lower RESERVED_WORDS).

(** The whole loop body: the storage name of a raw column name. *)
Definition safe_col_name (col_name : string) : string :=
  let safe := lower_replace col_name in
  if is_reserved safe then safe ++ "_col" else safe.

(** [column_defs] of [create_table]. *)
Definition column_defs (header : list string) : list string :=
  "id INTEGER PRIMARY KEY AUTOINCREMENT"
    :: map (fun col_name => quoted (safe_col_name col_name) ++ " TEXT") header.

Definition create_sql (header : list string) : string :=
  "CREATE TABLE utenti (" ++ Str.join ", " (column_defs header) ++ ");".

(** [create_table(conn, column_count)]; the header is read again from the
    file.  The handler only logs and re-raises. *)
Definition create_table (csv_file : csv) (column_count : nat) : M conn unit :=
  execute_drop "DROP TABLE IF EXISTS utenti;" ;;
  hr <- lift (next_record csv_file) ;;
  let header := fst hr in
  execute_create (create_sql header) ("id" :: map safe_col_name header) ;;
  commit.

Definition insert_sql (header : list string) : string :=
  let safe_column_names := map safe_col_name header in
  let placeholders := Str.join ", " (map (fun _ => "?") header) in
  let column_names := Str.join ", " (map quoted safe_column_names) in
  "INSERT INTO utenti (" ++ column_names ++ ") VALUES (" ++ placeholders ++ ")".

(** The [for row in csv_reader] loop, [total_rows] threaded through. *)
Fixpoint insert_rows (header : list string) (rows : csv) (total_rows : nat)
    : M conn nat :=
  match rows with
  | [] => ret total_rows
  | row :: rest =>
      execute_insert (insert_sql header) (map safe_col_name header)
                     (length header) row ;;
      let total_rows := total_rows + 1 in
      (if total_rows mod 1000 =? 0
       then commit ;; execute_begin "BEGIN TRANSACTION"
       else ret tt) ;;
      insert_rows header rest total_rows
  end.

(** [load_csv_to_database(conn, csv_file)] *)
Definition load_csv_to_database (csv_file : csv) : M conn nat :=
  try_except
    (hr <- lift (next_record csv_file) ;;
     let header := fst hr in
     execute_begin "BEGIN TRANSACTION" ;;
     total_rows <- insert_rows header (snd hr) 0 ;;
     commit ;;
     ret total_rows)
    (fun e => rollback ;; raise e).

(** The test of the column loop of [count_https_websites]. *)
Definition website_test (col_name : string) : bool :=
  String.eqb col_name "website" || Str.contains "website" col_name
  || Str.contains "site" col_name || Str.contains "sito" col_name.

(** The column loop: [website_col] after the loop. *)
Fixpoint find_website_col (columns : list string) : option string :=
  match columns with
  | [] => None
  | col :: rest =>
      if website_test (Str.lower col) then Some col
      else find_website_col rest
  end.

(** [not website_col] *)
Definition not_found (website_col : option string) : bool :=
  match website_col with
  | None => true
  | Some c => negb (Str.truthy c)
  end.

(** ASCII case folding, as the engine's [LIKE] does it. *)
Definition fold_ascii (c : ascii) : ascii :=
  let n := nat_of_ascii c in
  if (65 <=? n) && (n <=? 90) then ascii_of_nat (n + 32) else c.

(** [v LIKE 'https://%'] *)
Definition like_https (v : string) : bool :=
  Str.startswith "https://" (Str.map_chars fold_ascii v).

Definition count_sql (website_col : string) : string :=
  "SELECT COUNT(*) FROM utenti WHERE " ++ quoted website_col
    ++ " LIKE 'https://%';".

(** [count_https_websites(conn)] *)
Definition count_https_websites : M conn nat :=
  columns <- execute_columns "PRAGMA table_info(utenti)" ;;
  let website_col := find_website_col columns in
  if not_found website_col then ret 0
  else
    match website_col with
    | Some c => execute_count (count_sql c) c like_https
    | None => ret 0
    end.

(** What [main] prints under RISULTATI, when it gets there. *)
Definition results : Type := option (nat * nat).

(** [main()]: [csv_file] is [None] when the path does not exist; [k0] is
    the database as [sqlite3.connect] finds it. *)
Definition main (csv_file : option csv) (k0 : conn) : results * conn :=
  match csv_file with
  | None => (None, k0)
  | Some f =>
      match get_csv_column_count f with
      | Raise _ => (None, k0)
      | Ok column_count =>
          let run :=
            create_table f column_count ;;
            rows_loaded <- load_csv_to_database f ;;
            https_websites_count <- count_https_websites ;;
            ret (rows_loaded, https_websites_count) in
          match run k0 with
          | (Ok r, k) => (Some r, k)
          | (Raise _, k) => (None, k)
          end
      end
  end.

End Sqlite.

(** ** postgresql_script.py *)

Module Postgres.
Import Rel.

(** The sanitisation of [create_table] and of [load_csv_to_database]:
    [col_name.lower().replace(' ', '_')], with no reserved-word test. *)
Definition safe_col_name (col_name : string) : string :=
  Str.replace_char " " "_" (Str.lower col_name).

Definition column_defs (header : list string) : list string :=
  "id SERIAL PRIMARY KEY"
    :: map (fun col_name => safe_col_name col_name ++ " VARCHAR(255)") header.

Definition create_sql (header : list string) : string :=
  "CREATE TABLE utenti (" ++ Str.join ", " (column_defs header) ++ ");".

Definition insert_sql (header : list string) : string :=
  let column_names := Str.join ", " (map safe_col_name header) in
  let placeholders := Str.join ", " (map (fun _ => "%s") header) in
  "INSERT INTO utenti (" ++ column_names ++ ") VALUES (" ++ placeholders ++ ")".

(** The [for row in csv_reader] loop. *)
Fixpoint insert_rows (header : list string) (rows : csv) (total_rows : nat)
    : M conn nat :=
  match rows with
  | [] => ret total_rows
  | row :: rest =>
      execute_insert_formatted (insert_sql header) (map safe_col_name header)
                     (length header) row ;;
      let total_rows := total_rows + 1 in
      (if total_rows mod 1000 =? 0 then commit else ret tt) ;;
      insert_rows header rest total_rows
  end.

(** [load_csv_to_database(conn, csv_file, header)]; the handler only logs
    and re-raises. *)
Definition load_csv_to_database (csv_file : csv) (header : list string)
    : M conn nat :=
  hr <- lift (next_record csv_file) ;;
  total_rows <- insert_rows header (snd hr) 0 ;;
  commit ;;
  ret total_rows.

(** The test of the column loop of [count_com_emails]. *)
Definition email_test (col_name : string) : bool :=
  String.eqb col_name "email" || Str.contains "email" col_name
  || Str.contains "mail" col_name.

Fixpoint find_email_col (columns : list string) : option string :=
  match columns with
  | [] => None
  | col :: rest =>
      if email_test (Str.lower col) then Some col
      else find_email_col rest
  end.

Definition not_found (email_col : option string) : bool :=
  match email_col with
  | None => true
  | Some c => negb (Str.truthy c)
  end.

Definition columns_sql : string :=
  "SELECT column_name FROM information_schema.columns WHERE table_name = 'utenti' AND table_schema = 'public'".

Definition count_sql (email_col : string) : string :=
  "SELECT COUNT(*) FROM utenti WHERE " ++ email_col ++ " LIKE '%.com';".

(** [count_com_emails(conn)] *)
Definition count_com_emails : M conn nat :=
  columns <- execute_columns columns_sql ;;
  let email_col := find_email_col columns in
  if not_found email_col then ret 0
  else
    match email_col with
    | Some c => execute_count (count_sql c) c (Str.endswith ".com")
    | None => ret 0
    end.

End Postgres.

(** ** duckdb_script.py: the column search of the count query *)

Module Duckdb.

(** The test of the column loop of [count_info_domain_websites]. *)
Definition website_test (col_name : string) : bool :=
  String.eqb col_name "website" || Str.contains "site" col_name
  || Str.contains "sito" col_name.

Fixpoint find_website_col (table_info : list string) : option string :=
  match table_info with
  | [] => None
  | col :: rest =>
      if website_test (Str.lower col) then Some col
      else find_website_col rest
  end.

End Duckdb.

(** ** The column search the scripts share

    Every script scans the columns in the order the store lists them and
    stops at the first one whose lower-cased name passes a test: equality
    with one keyword, or containment of one of several substrings. *)

Module FieldMatcher.

Definition keyword_test (exact : string) (subs : list string)
    (name : string) : bool :=
  String.eqb name exact || existsb (fun k => Str.contains k name) subs.

Fixpoint first_field (test : string -> bool) (fields : list string)
    : option string :=
  match fields with
  | [] => None
  | f :: rest =>
      if test (Str.lower f) then Some f else first_field test rest
  end.

Definition match_field (exact : string) (subs : list string)
    (fields : list string) : option string :=
  first_field (keyword_test exact subs) fields.

End FieldMatcher.

(** ** mongodb_script.py *)

Module Mongo.

(** A [datetime] at midnight, as [strptime] with a date-only format
    returns it. *)
Record datetime : Type := mkDate { year : nat; month : nat; day : nat }.

Definition digit (c : ascii) : option nat :=
  let n := nat_of_ascii c in
  if (48 <=? n) && (n <=? 57) then Some (n - 48) else None.

Definition is_leap (y : nat) : bool :=
  (y mod 4 =? 0) && (negb (y mod 100 =? 0) || (y mod 400 =? 0)).

Definition days_in_month (y m : nat) : nat :=
  match m with
  | 2 => if is_leap y then 29 else 28
  | 4 | 6 | 9 | 11 => 30
  | _ => 31
  end.

(** The month field of the format: [1[0-2]|0[1-9]|[1-9]], and what is left
    of the text after it. *)
Definition parse_month (s : string) : option (nat * string) :=
  match s with
  | String a r =>
      match digit a, r with
      | Some 1, String b r' =>
          match digit b with
          | Some x => if x <=? 2 then Some (10 + x, r') else Some (1, r)
          | None => Some (1, r)
          end
      | Some 0, String b r' =>
          match digit b with
          | Some 0 | None => None
          | Some x => Some (x, r')
          end
      | Some 0, EmptyString => None
      | Some x, _ => Some (x, r)
      | None, _ => None
      end
  | EmptyString => None
  end.

(** The day field of the format,
    [3[0-1]|[1-2]\d|0[1-9]|[1-9]| [1-9]], which has to end the text. *)
Definition parse_day (s : string) : option nat :=
  match s with
  | String a EmptyString =>
      match digit a with
      | Some 0 | None => None
      | Some x => Some x
      end
  | String a (String b EmptyString) =>
      match digit a, digit b with
      | Some 3, Some y => if y <=? 1 then Some (30 + y) else None
      | Some 0, Some 0 => None
      | Some 0, Some y => Some y
      | Some x, Some y => if x <=? 2 then Some (10 * x + y) else None
      | None, Some y =>
          if Ascii.eqb a " " && negb (y =? 0) then Some y else None
      | _, None => None
      end
  | _ => None
  end.

(** [datetime.strptime(value, "%Y-%m-%d")]; [None] stands for
    [ValueError]. *)
Definition strptime (value : string) : option datetime :=
  match value with
  | String y1 (String y2 (String y3 (String y4 (String sep1 r)))) =>
      match digit y1, digit y2, digit y3, digit y4 with
      | Some a, Some b, Some c, Some d =>
          let y := 1000 * a + 100 * b + 10 * c + d in
          if negb (Ascii.eqb sep1 "-") then None
          else
            match parse_month r with
            | Some (m, String sep2 r') =>
                if negb (Ascii.eqb sep2 "-") then None
                else
                  match parse_day r' with
                  | Some dd =>
                      if (1 <=? y) && (dd <=? days_in_month y m)
                      then Some (mkDate y m dd)
                      else None
                  | None => None
                  end
            | _ => None
            end
      | _, _, _, _ => None
      end
  | _ => None
  end.

(** [a <= b] on dates. *)
Definition date_leb (a b : datetime) : bool :=
  (year a <? year b)
  || ((year a =? year b)
      && ((month a <? month b)
          || ((month a =? month b) && (day a <=? day b)))).

(** Values a document of the collection holds. *)
Inductive bson : Type :=
| VNone
| VStr (s : string)
| VDate (d : datetime)
| VOid (n : nat).          (* an ObjectId the driver generated *)

(** A Python [dict] with string keys, in insertion order. *)
Definition doc : Type := list (string * bson).

Fixpoint get (k : string) (d : doc) : option bson :=
  match d with
  | [] => None
  | (k', v) :: r => if String.eqb k' k then Some v else get k r
  end.

(** [d[k] = v]: an existing key keeps its place, a new one goes last. *)
Fixpoint set (k : string) (v : bson) (d : doc) : doc :=
  match d with
  | [] => [(k, v)]
  | (k', v') :: r =>
      if String.eqb k' k then (k, v) :: r else (k', v') :: set k v r
  end.

Definition remove (k : string) (d : doc) : doc :=
  filter (fun kv => negb (String.eqb (fst kv) k)) d.

(** The column-name test of the date handling. *)
Definition is_date_column (col_name : string) : bool :=
  Str.contains "date" (Str.lower col_name)
  || Str.contains "data" (Str.lower col_name).

(** The value stored for [row[i]] under [col_name]. *)
Definition convert (col_name value : string) : bson :=
  if is_date_column col_name then
    if Str.truthy value then
      match strptime value with
      | Some d => VDate d
      | None => VStr value      (* ValueError: the text is kept *)
      end
    else VNone
  else VStr value.

(** The [for i, col_name in enumerate(header)] loop, from index [i] on. *)
Fixpoint fill_doc (header : list string) (i : nat) (row : list string)
    (d : doc) : doc :=
  match header with
  | [] => d
  | col_name :: rest =>
      let d' := if i <? length row
                then set col_name (convert col_name (nth i row "")) d
                else d in
      fill_doc rest (S i) row d'
  end.

Definition make_doc (header row : list string) : doc :=
  fill_doc header 0 row [].

Inductive call : Type :=
| ListCollectionNames
| Drop
| InsertMany (documents : list doc)
| FindOne
| CountDocuments (field : string).

(** The database: the collection [utenti] when it exists, the counter
    behind generated ObjectIds, and the calls made so far. *)
Record db : Type := mkDb {
  utenti : option (list doc);
  next_oid : nat;
  log : list call
}.

Definition bson_eqb (a b : bson) : bool :=
  match a, b with
  | VNone, VNone => true
  | VStr s, VStr t => String.eqb s t
  | VDate d, VDate e =>
      (year d =? year e) && (month d =? month e) && (day d =? day e)
  | VOid n, VOid m => n =? m
  | _, _ => false
  end.

Definition has_id (v : bson) (stored : list doc) : bool :=
  existsb (fun d => match get "_id" d with
                    | Some w => bson_eqb v w
                    | None => false
                    end) stored.

(** The server side of an ordered [insert_many]: documents go in one by
    one; a document without [_id] gets a fresh ObjectId, a repeated [_id]
    stops the insertion with the earlier documents kept.  Returns the
    collection, the ObjectId counter and whether all went in. *)
Fixpoint store_all (documents stored : list doc) (oid : nat)
    : list doc * nat * bool :=
  match documents with
  | [] => (stored, oid, true)
  | d :: rest =>
      match get "_id" d with
      | None => store_all rest (stored ++ [("_id", VOid oid) :: d]) (S oid)
      | Some v =>
          if has_id v stored then (stored, oid, false)
          else store_all rest (stored ++ [("_id", v) :: remove "_id" d]) oid
      end
  end.

(** [collection.insert_many(documents)] *)
Definition insert_many (documents : list doc) : M db unit :=
  fun s =>
    let l := (log s ++ [InsertMany documents])%list in
    match documents with
    | [] => (Raise EmptyInsert, mkDb (utenti s) (next_oid s) l)
    | _ =>
        let stored := match utenti s with Some c => c | None => [] end in
        match store_all documents stored (next_oid s) with
        | (c, oid, true) => (Ok tt, mkDb (Some c) oid l)
        | (c, oid, false) => (Raise DuplicateKey, mkDb (Some c) oid l)
        end
    end.

(** [db.list_collection_names()], as far as [utenti] goes. *)
Definition list_collection_names : M db (list string) :=
  fun s =>
    (Ok (match utenti s with Some _ => ["utenti"] | None => [] end),
     mkDb (utenti s) (next_oid s) (log s ++ [ListCollectionNames])).

(** [db[COLLECTION_NAME].drop()] *)
Definition drop : M db unit :=
  fun s => (Ok tt, mkDb None (next_oid s) (log s ++ [Drop])).

(** [collection.find_one()] *)
Definition find_one : M db (option doc) :=
  fun s =>
    (Ok (match utenti s with
         | Some (d :: _) => Some d
         | _ => None
         end),
     mkDb (utenti s) (next_oid s) (log s ++ [FindOne])).

(** Whether a document passes [{field: {"$gte": lo, "$lte": hi}}].  The
    store reads a key with a dot as a path into an embedded document, and
    the documents here hold none; only date values compare with the
    bounds. *)
Definition in_range (field : string) (lo hi : datetime) (d : doc) : bool :=
  negb (Str.contains "." field)
  && match get field d with
     | Some (VDate x) => date_leb lo x && date_leb x hi
     | _ => false
     end.

(** [collection.count_documents({field: {"$gte": lo, "$lte": hi}})]; a key
    that starts with a dollar sign is read as an operator and refused. *)
Definition count_documents (field : string) (lo hi : datetime) : M db nat :=
  fun s =>
    let s' := mkDb (utenti s) (next_oid s) (log s ++ [CountDocuments field]) in
    if Str.startswith "$" field then (Raise StatementRefused, s')
    else
      (Ok (length (filter (in_range field lo hi)
                          (match utenti s with Some c => c | None => [] end))),
       s').

(** [drop_collection(db)] *)
Definition drop_collection : M db unit :=
  names <- list_collection_names ;;
  if Str.mem "utenti" names then drop else ret tt.

(** The [for row in csv_reader] loop, with [total_rows] and the batch
    [documents] threaded through. *)
Fixpoint load_rows (header : list string) (rows : csv) (total_rows : nat)
    (documents : list doc) : M db (nat * list doc) :=
  match rows with
  | [] => ret (total_rows, documents)
  | row :: rest =>
      let documents := (documents ++ [make_doc header row])%list in
      let total_rows := total_rows + 1 in
      if 1000 <=? length documents
      then insert_many documents ;; load_rows header rest total_rows []
      else load_rows header rest total_rows documents
  end.

(** [load_csv_to_mongodb(db, csv_file)] *)
Definition load_csv_to_mongodb (csv_file : csv) : M db nat :=
  hr <- lift (next_record csv_file) ;;
  td <- load_rows (fst hr) (snd hr) 0 [] ;;
  match snd td with
  | [] => ret (fst td)
  | documents => insert_many documents ;; ret (fst td)
  end.

(** The test of the field loop of [count_2020_subscriptions]. *)
Definition subscription_test (field_lower : string) : bool :=
  (Str.contains "subscription" field_lower
   || Str.contains "iscrizione" field_lower)
  && (Str.contains "date" field_lower || Str.contains "data" field_lower).

Fixpoint find_date_field (fields : list string) : option string :=
  match fields with
  | [] => None
  | field :: rest =>
      if subscription_test (Str.lower field) then Some field
      else find_date_field rest
  end.

(** [date_field] after [if document_example: ...]; an empty document is
    falsy. *)
Definition date_field_of (document_example : option doc) : option string :=
  match document_example with
  | None | Some [] => None
  | Some d => find_date_field (map fst d)
  end.

Definition not_found (date_field : option string) : bool :=
  match date_field with
  | None => true
  | Some f => negb (Str.truthy f)
  end.

(** [count_2020_subscriptions(db)] *)
Definition count_2020_subscriptions : M db nat :=
  document_example <- find_one ;;
  let date_field := date_field_of document_example in
  if not_found date_field then ret 0
  else
    match date_field with
    | Some f => count_documents f (mkDate 2020 1 1) (mkDate 2020 12 31)
    | None => ret 0
    end.

Definition results : Type := option (nat * nat).

(** [main()]: [csv_file] is [None] when the path does not exist; [s0] is
    the database the client connects to. *)
Definition main (csv_file : option csv) (s0 : db) : results * db :=
  match csv_file with
  | None => (None, s0)
  | Some f =>
      let run :=
        drop_collection ;;
        rows_loaded <- load_csv_to_mongodb f ;;
        subscriptions_2020 <- count_2020_subscriptions ;;
        ret (rows_loaded, subscriptions_2020) in
      match run s0 with
      | (Ok r, s) => (Some r, s)
      | (Raise _, s) => (None, s)
      end
  end.

End Mongo.

(** ** The sanitiser as the specification words it

    Lower-case, then every maximal run of whitespace becomes one
    underscore, then the reserved-word test of the SQLite script. *)

Module SpecSanitizer.

(** [in_run] tells whether the previous character was whitespace. *)
Fixpoint collapse (s : string) (in_run : bool) : string :=
  match s with
  | EmptyString => EmptyString
  | String c r =>
      if Str.isspace c
      then if in_run then collapse r true else String "_" (collapse r true)
      else String c (collapse r false)
  end.

Definition sanitize (raw : string) : string :=
  let safe := collapse (Str.lower raw) false in
  if Sqlite.is_reserved safe then safe ++ "_col" else safe.

End SpecSanitizer.

(** The character map behind both sanitisers: lower-case, then a space
    becomes an underscore. *)
Definition sanitize_char (c : ascii) : ascii :=
  if Ascii.eqb (Str.lower_char c) " " then "_"%char else Str.lower_char c.

(** The tab character, as a one-character string. *)
Definition tab : string := String (ascii_of_nat 9) EmptyString.

(** The connection [create_table] leaves when the engine accepts the
    statement. *)
Definition created (header : list string) (k : Rel.conn) : Rel.conn :=
  Rel.mkConn
    (Some (Rel.mkTable ("id" :: map Sqlite.safe_col_name header) [] []))
    (Rel.log k ++ [Rel.Execute "DROP TABLE IF EXISTS utenti;" []]
       ++ [Rel.Execute (Sqlite.create_sql header) []] ++ [Rel.Commit]).

(** The documents of the collection, none when it does not exist. *)
Definition coll (s : Mongo.db) : list Mongo.doc :=
  match Mongo.utenti s with Some c => c | None => [] end.

(** Documents as stored when each gets a generated ObjectId, from [oid]
    on. *)
Fixpoint with_ids (oid : nat) (documents : list Mongo.doc) : list Mongo.doc :=
  match documents with
  | [] => []
  | d :: rest => (("_id", Mongo.VOid oid) :: d) :: with_ids (S oid) rest
  end.

(** The document [zip(header, row)] would give, values converted. *)
Definition zipped (header row : list string) : Mongo.doc :=
  map (fun cv => (fst cv, Mongo.convert (fst cv) (snd cv))) (combine header row).

(** The rows a relational connection sees, none without a table. *)
Definition stored_rows (k : Rel.conn) : list Rel.row :=
  match Rel.utenti k with Some t => Rel.visible t | None => [] end.

(** The columns a catalogue query on the connection lists. *)
Definition listed_columns (k : Rel.conn) : list string :=
  match Rel.utenti k with Some t => Rel.columns t | None => [] end.

(** The document [find_one] returns. *)
Definition first_document (s : Mongo.db) : option Mongo.doc :=
  match Mongo.utenti s with Some (d :: _) => Some d | _ => None end.

(** The database after one more logged call. *)
Definition mongo_logged (c : Mongo.call) (s : Mongo.db) : Mongo.db :=
  Mongo.mkDb (Mongo.utenti s) (Mongo.next_oid s) (Mongo.log s ++ [c]).

(** The committed and the pending rows of a relational connection. *)
Definition committed_rows (k : Rel.conn) : list Rel.row :=
  match Rel.utenti k with Some t => Rel.committed t | None => [] end.

Definition pending_rows (k : Rel.conn) : list Rel.row :=
  match Rel.utenti k with Some t => Rel.pending t | None => [] end.

(** The rows of the connection are split as the counter says: full
    batches committed, the rest pending. *)
Definition batched (total : nat) (k : Rel.conn) : Prop :=
  length (committed_rows k) + total mod 1000 = total
  /\ length (pending_rows k) = total mod 1000.



(** The condition of the count query of the MongoDB script on one
    document. *)
Definition in_2020 (field : string) (d : Mongo.doc) : bool :=
  Mongo.in_range field (Mongo.mkDate 2020 1 1) (Mongo.mkDate 2020 12 31) d.

(** A name without a double quote: between the quotes the SQLite script
    puts around it, the engine reads it as one identifier. *)
Definition no_quote (name : string) : bool := negb (Str.contains dq name).

Fixpoint every_char (p : ascii -> bool) (s : string) : bool :=
  match s with
  | EmptyString => true
  | String c r => p c && every_char p r
  end.

(** Lower-case letters, digits and the underscore. *)
Definition word_char (c : ascii) : bool :=
  let n := nat_of_ascii c in
  ((97 <=? n) && (n <=? 122)) || ((48 <=? n) && (n <=? 57)) || (n =? 95).

(** A name the PostgreSQL script can paste bare into a statement without
    changing the statement's shape. *)
Definition bare_word (name : string) : bool := every_char word_char name.

(** The count the MongoDB script reports for a list of documents: the
    field is looked for among the keys of the first one. *)
Definition count_2020 (documents : list Mongo.doc) : nat :=
  match documents with
  | [] => 0
  | d :: _ =>
      match Mongo.find_date_field (map fst d) with
      | Some field => length (filter (in_2020 field) documents)
      | None => 0
      end
  end.

(** * Properties *)

(** ** Strings *)

Section StringFacts.

Lemma map_chars_length (f : ascii -> ascii) (s : string) :
  String.length (Str.map_chars f s) = String.length s.
Proof. induction s as [|c r IH]; simpl; [reflexivity | now rewrite IH]. Qed.

Lemma map_chars_get (f : ascii -> ascii) (s : string) (i : nat) :
  String.get i (Str.map_chars f s) = option_map f (String.get i s).
Proof.
  revert i; induction s as [|c r IH]; intros i; simpl.
  - reflexivity.
  - destruct i as [|i]; simpl; [reflexivity | apply IH].
Qed.

Lemma map_chars_compose (f g : ascii -> ascii) (s : string) :
  Str.map_chars g (Str.map_chars f s) = Str.map_chars (fun c => g (f c)) s.
Proof. induction s as [|c r IH]; simpl; [reflexivity | now rewrite IH]. Qed.

Lemma map_chars_ext (f g : ascii -> ascii) (s : string) :
  (forall c, f c = g c) -> Str.map_chars f s = Str.map_chars g s.
Proof.
  intros E; induction s as [|c r IH]; simpl; [reflexivity|].
  now rewrite E, IH.
Qed.

Lemma map_chars_app (f : ascii -> ascii) (s t : string) :
  Str.map_chars f (s ++ t) = Str.map_chars f s ++ Str.map_chars f t.
Proof. induction s as [|c r IH]; simpl; [reflexivity | now rewrite IH]. Qed.

Lemma map_chars_fixed (f : ascii -> ascii) (s : string) :
  (forall c, f (f c) = f c) ->
  Str.map_chars f (Str.map_chars f s) = Str.map_chars f s.
Proof.
  intros E. rewrite map_chars_compose. now apply map_chars_ext.
Qed.

Lemma mem_In (x : string) (xs : list string) :
  Str.mem x xs = true <-> In x xs.
Proof.
  unfold Str.mem. rewrite existsb_exists. split.
  - intros [y [Hy E]]. apply String.eqb_eq in E. now subst.
  - intros H. exists x. split; [assumption | apply String.eqb_refl].
Qed.

End StringFacts.

Ltac all_chars c :=
  destruct c as [[|] [|] [|] [|] [|] [|] [|] [|]]; vm_compute; try reflexivity.

Lemma sanitize_char_idem (c : ascii) :
  sanitize_char (sanitize_char c) = sanitize_char c.
Proof. all_chars c. Qed.

Lemma sanitize_char_lower (c : ascii) :
  Str.lower_char (sanitize_char c) = sanitize_char c.
Proof. all_chars c. Qed.

Lemma lower_replace_map (s : string) :
  Sqlite.lower_replace s = Str.map_chars sanitize_char s.
Proof.
  unfold Sqlite.lower_replace, Str.replace_char, Str.lower.
  rewrite map_chars_compose. reflexivity.
Qed.

Lemma lower_replace_idem (s : string) :
  Sqlite.lower_replace (Sqlite.lower_replace s) = Sqlite.lower_replace s.
Proof.
  rewrite !lower_replace_map. apply map_chars_fixed, sanitize_char_idem.
Qed.

Lemma lower_lower_replace (s : string) :
  Str.lower (Sqlite.lower_replace s) = Sqlite.lower_replace s.
Proof.
  rewrite lower_replace_map. unfold Str.lower. rewrite map_chars_compose.
  apply map_chars_ext, sanitize_char_lower.
Qed.

Lemma sanitize_char_not_space (c : ascii) :
  Ascii.eqb " " (sanitize_char c) = false.
Proof. all_chars c. Qed.

Lemma no_space_after_map (s t : string) :
  Str.contains " " (Str.map_chars sanitize_char s ++ t) = Str.contains " " t.
Proof.
  induction s as [|c r IH]; [reflexivity|].
  cbn [Str.map_chars append Str.contains Str.startswith].
  now rewrite sanitize_char_not_space, IH.
Qed.

Lemma replace_space_none_left (s : string) :
  Str.contains " " (Str.replace_char " " "_" s) = false.
Proof.
  unfold Str.replace_char.
  induction s as [|c r IH]; [reflexivity|].
  cbn [Str.map_chars Str.contains Str.startswith]. rewrite IH.
  destruct (Ascii.eqb c " ") eqn:E; [reflexivity|].
  rewrite Ascii.eqb_sym, E. reflexivity.
Qed.

(** ** The name sanitiser *)

Lemma reserved_suffix_free :
  forallb (fun w => negb (Sqlite.is_reserved (w ++ "_col")))
          (map Str.lower Sqlite.RESERVED_WORDS) = true.
Proof. vm_compute. reflexivity. Qed.

Lemma suffixed_not_reserved (col_name : string) :
  Sqlite.is_reserved (Sqlite.lower_replace col_name) = true ->
  Sqlite.is_reserved (Sqlite.lower_replace col_name ++ "_col") = false.
Proof.
  intros H. unfold Sqlite.is_reserved in H.
  rewrite lower_lower_replace in H. apply mem_In in H.
  pose proof reserved_suffix_free as F.
  rewrite forallb_forall in F. specialize (F _ H).
  now apply negb_true_iff in F.
Qed.

Lemma lower_replace_suffixed (s : string) :
  Sqlite.lower_replace (Sqlite.lower_replace s ++ "_col")
  = Sqlite.lower_replace s ++ "_col".
Proof.
  rewrite (lower_replace_map (_ ++ _)), map_chars_app.
  rewrite <- lower_replace_map, lower_replace_idem. reflexivity.
Qed.

Lemma sqlite_safe_col_name_idem (x : string) :
  Sqlite.safe_col_name (Sqlite.safe_col_name x) = Sqlite.safe_col_name x.
Proof.
  unfold Sqlite.safe_col_name.
  destruct (Sqlite.is_reserved (Sqlite.lower_replace x)) eqn:R.
  - rewrite lower_replace_suffixed.
    now rewrite (suffixed_not_reserved x R).
  - rewrite lower_replace_idem. now rewrite R.
Qed.

Lemma sqlite_safe_col_name_not_reserved (x : string) :
  Sqlite.is_reserved (Sqlite.safe_col_name x) = false.
Proof.
  unfold Sqlite.safe_col_name.
  destruct (Sqlite.is_reserved (Sqlite.lower_replace x)) eqn:R.
  - now apply suffixed_not_reserved.
  - exact R.
Qed.

(** C3.  Both sanitisers are idempotent: the storage name of a storage
    name is that storage name.  For the SQLite script this covers the
    reserved-word suffix: no reserved word followed by [_col] is itself
    reserved. *)
Theorem sanitize_idempotent (x : string) :
  Sqlite.safe_col_name (Sqlite.safe_col_name x) = Sqlite.safe_col_name x
  /\ Postgres.safe_col_name (Postgres.safe_col_name x)
     = Postgres.safe_col_name x.
Proof.
  split.
  - apply sqlite_safe_col_name_idem.
  - apply lower_replace_idem.
Qed.

(** C2, as stated, fails: two consecutive spaces give two underscores and
    a tab is kept, where the specification's sanitiser gives one underscore
    for each run. *)
Lemma whitespace_runs_not_collapsed :
  Sqlite.safe_col_name "First  Name" = "first__name"
  /\ SpecSanitizer.sanitize "First  Name" = "first_name"
  /\ Postgres.safe_col_name "First  Name" = "first__name"
  /\ Sqlite.safe_col_name ("First" ++ tab ++ "Name") = "first" ++ tab ++ "name"
  /\ SpecSanitizer.sanitize ("First" ++ tab ++ "Name") = "first_name"
  /\ Sqlite.safe_col_name "First  Name" <> SpecSanitizer.sanitize "First  Name".
Proof.
  repeat split; try (vm_compute; reflexivity).
  vm_compute. discriminate.
Qed.

(** C2, amended.  The sanitiser lower-cases the name, then puts one
    underscore in the place of each space (U+0020) of the lower-cased name
    and leaves every other character of it as it is: the result is as long
    as the lower-cased name, [k] consecutive spaces give [k] underscores,
    and a tab or any other whitespace stays.  The reserved-word test of the
    SQLite script then runs on that result; the PostgreSQL script returns
    it unchanged. *)
Theorem spaces_replaced_one_for_one (col_name : string) :
  let low := Str.lower col_name in
  let safe := Sqlite.lower_replace col_name in
  String.length safe = String.length low
  /\ (forall i,
        String.get i safe
        = option_map (fun c => if Ascii.eqb c " " then "_"%char else c)
                     (String.get i low))
  /\ Str.contains " " safe = false
  /\ Sqlite.safe_col_name col_name
     = (if Sqlite.is_reserved safe then safe ++ "_col" else safe)
  /\ Postgres.safe_col_name col_name = safe.
Proof.
  cbv zeta. repeat apply conj.
  - unfold Sqlite.lower_replace, Str.replace_char. apply map_chars_length.
  - intros i. unfold Sqlite.lower_replace, Str.replace_char.
    apply map_chars_get.
  - apply replace_space_none_left.
  - reflexivity.
  - reflexivity.
Qed.

(** C7, as stated, fails on its third name: the hyphen of [Sign-up Date]
    is kept, only the space becomes an underscore. *)
Lemma sign_up_date_keeps_hyphen :
  map Postgres.safe_col_name ["Name"; "Email Address"; "Sign-up Date"]
  = ["name"; "email_address"; "sign-up_date"]
  /\ map Postgres.safe_col_name ["Name"; "Email Address"; "Sign-up Date"]
     <> ["name"; "email_address"; "sign_up_date"].
Proof. split; [vm_compute; reflexivity | vm_compute; discriminate]. Qed.

(** C7, amended.  The header [Name, Email Address, Sign-up Date] is
    sanitised to [name, email_address, sign-up_date] by both relational
    scripts; on these fields the search with the keywords email and mail
    (the one of [count_com_emails]) returns [email_address], and a search
    with the keyword phone finds nothing. *)
Theorem header_scenario :
  let header := ["Name"; "Email Address"; "Sign-up Date"] in
  let fields := ["name"; "email_address"; "sign-up_date"] in
  map Postgres.safe_col_name header = fields
  /\ map Sqlite.safe_col_name header = fields
  /\ Postgres.find_email_col fields = Some "email_address"
  /\ FieldMatcher.match_field "email" ["email"; "mail"] fields
     = Some "email_address"
  /\ FieldMatcher.match_field "phone" ["phone"] fields = None.
Proof. cbv zeta. repeat split; vm_compute; reflexivity. Qed.

(** ** The column search *)

Lemma first_field_some (test : string -> bool) (fields : list string)
    (f : string) :
  FieldMatcher.first_field test fields = Some f <->
  exists pre post,
    fields = (pre ++ f :: post)%list
    /\ test (Str.lower f) = true
    /\ Forall (fun g => test (Str.lower g) = false) pre.
Proof.
  induction fields as [|g rest IH]; simpl.
  - split; [discriminate|].
    intros (pre & post & E & _). destruct pre; discriminate E.
  - destruct (test (Str.lower g)) eqn:T.
    + split.
      * intros E. injection E as <-. exists [], rest. auto.
      * intros (pre & post & E & Tf & Fp).
        destruct pre as [|p pre]; simpl in E; injection E as -> ->.
        -- reflexivity.
        -- inversion Fp; congruence.
    + rewrite IH. split.
      * intros (pre & post & -> & Tf & Fp). exists (g :: pre), post. auto.
      * intros (pre & post & E & Tf & Fp).
        destruct pre as [|p pre]; simpl in E; injection E as -> ->.
        -- congruence.
        -- exists pre, post. inversion Fp; auto.
Qed.

Lemma first_field_none (test : string -> bool) (fields : list string) :
  FieldMatcher.first_field test fields = None <->
  Forall (fun g => test (Str.lower g) = false) fields.
Proof.
  induction fields as [|g rest IH]; simpl.
  - split; auto.
  - destruct (test (Str.lower g)) eqn:T.
    + split; [discriminate | intros F; inversion F; congruence].
    + rewrite IH. split; [auto | intros F; now inversion F].
Qed.

Lemma sqlite_find_is_first_field (columns : list string) :
  Sqlite.find_website_col columns
  = FieldMatcher.first_field Sqlite.website_test columns.
Proof. induction columns as [|c r IH]; simpl; [|rewrite IH]; reflexivity. Qed.

Lemma duckdb_find_is_first_field (table_info : list string) :
  Duckdb.find_website_col table_info
  = FieldMatcher.first_field Duckdb.website_test table_info.
Proof. induction table_info as [|c r IH]; simpl; [|rewrite IH]; reflexivity. Qed.

Lemma postgres_find_is_first_field (columns : list string) :
  Postgres.find_email_col columns
  = FieldMatcher.first_field Postgres.email_test columns.
Proof. induction columns as [|c r IH]; simpl; [|rewrite IH]; reflexivity. Qed.

Lemma mongo_find_is_first_field (fields : list string) :
  Mongo.find_date_field fields
  = FieldMatcher.first_field Mongo.subscription_test fields.
Proof. induction fields as [|c r IH]; simpl; [|rewrite IH]; reflexivity. Qed.

(** C5, as stated, fails: a column that only contains a substring wins
    over a later column whose name equals the keyword. *)
Lemma earlier_substring_match_wins :
  Duckdb.find_website_col ["site_id"; "website"] = Some "site_id"
  /\ Sqlite.find_website_col ["site_id"; "website"] = Some "site_id"
  /\ Postgres.find_email_col ["mailing_list"; "email"] = Some "mailing_list"
  /\ String.eqb (Str.lower "website") "website" = true
  /\ String.eqb (Str.lower "site_id") "website" = false.
Proof. repeat split; vm_compute; reflexivity. Qed.

(** C5, amended.  Each script's search is the scan that returns the first
    field, in the order the store lists them, whose lower-cased name passes
    the script's test (equality with the keyword or containment of one of
    the substrings); it returns nothing exactly when no field passes.
    Equality and containment are alternatives of one test per field: which
    of them holds plays no part in the choice between fields. *)
Theorem search_returns_first_passing_field :
  (forall columns,
     Sqlite.find_website_col columns
     = FieldMatcher.first_field Sqlite.website_test columns)
  /\ (forall table_info,
        Duckdb.find_website_col table_info
        = FieldMatcher.first_field Duckdb.website_test table_info)
  /\ (forall columns,
        Postgres.find_email_col columns
        = FieldMatcher.first_field Postgres.email_test columns)
  /\ (forall fields,
        Mongo.find_date_field fields
        = FieldMatcher.first_field Mongo.subscription_test fields)
  /\ (forall test fields f,
        FieldMatcher.first_field test fields = Some f <->
        exists pre post,
          fields = (pre ++ f :: post)%list
          /\ test (Str.lower f) = true
          /\ Forall (fun g => test (Str.lower g) = false) pre)
  /\ (forall test fields,
        FieldMatcher.first_field test fields = None <->
        Forall (fun g => test (Str.lower g) = false) fields).
Proof.
  repeat apply conj.
  - apply sqlite_find_is_first_field.
  - apply duckdb_find_is_first_field.
  - apply postgres_find_is_first_field.
  - apply mongo_find_is_first_field.
  - apply first_field_some.
  - apply first_field_none.
Qed.

(** ** Schema creation *)

Lemma execute_create_ok (sql : string) (cols : list string) (k : Rel.conn) :
  Rel.utenti k = None ->
  Rel.has_dup (map Str.lower cols) = false ->
  Rel.execute_create sql cols k
  = (Ok tt, Rel.mkConn (Some (Rel.mkTable cols [] []))
                       (Rel.log k ++ [Rel.Execute sql []])).
Proof.
  intros U D. unfold Rel.execute_create. rewrite U, D. reflexivity.
Qed.

Lemma sqlite_create_table_ok (header : list string) (rows : csv) (n : nat)
    (k : Rel.conn) :
  Rel.has_dup (map Str.lower ("id" :: map Sqlite.safe_col_name header)) = false ->
  Sqlite.create_table (header :: rows) n k = (Ok tt, created header k).
Proof.
  intros D. unfold Sqlite.create_table, bind, lift, Rel.execute_drop.
  cbn [next_record fst].
  rewrite execute_create_ok; [| reflexivity | exact D].
  unfold Rel.commit, created, Rel.visible. cbn.
  rewrite <- !app_assoc. reflexivity.
Qed.




(** ** Loading *)

Lemma begin_after_commit (sql : string) (k : Rel.conn) :
  pending_rows k = [] ->
  Rel.execute_begin sql k = (Ok tt, Rel.logged (Rel.Execute sql []) k).
Proof.
  unfold pending_rows, Rel.execute_begin.
  destruct (Rel.utenti k) as [t|]; [|reflexivity].
  now intros ->.
Qed.


Lemma batch_commit_ok (b : bool) (k : Rel.conn) :
  exists k1,
    (if b then Rel.commit ;; Rel.execute_begin "BEGIN TRANSACTION"
     else ret tt) k = (Ok tt, k1).
Proof.
  destruct b; [|unfold ret; eauto].
  unfold bind, Rel.commit. rewrite begin_after_commit; [eauto|].
  unfold pending_rows. cbn [Rel.utenti].
  destruct (Rel.utenti k); reflexivity.
Qed.

Lemma pg_batch_commit_ok (b : bool) (k : Rel.conn) :
  exists k1, (if b then Rel.commit else ret tt) k = (Ok tt, k1).
Proof. destruct b; unfold Rel.commit, ret; eauto. Qed.

Lemma sqlite_insert_rows_total (header : list string) (rows : csv) :
  forall total k n k',
    Sqlite.insert_rows header rows total k = (Ok n, k') ->
    n = total + length rows.
Proof.
  induction rows as [|row rest IH]; intros total k n k' H.
  - cbn in H. unfold ret in H. injection H as <- _. cbn. lia.
  - cbn [Sqlite.insert_rows] in H. unfold bind at 1 in H.
    destruct (Rel.execute_insert _ _ _ _ k) as [[[]|e] k1]; [|discriminate H].
    unfold bind at 1 in H.
    destruct (batch_commit_ok (((total + 1) mod 1000) =? 0) k1) as [k2 E].
    rewrite E in H. apply IH in H. cbn [length]. lia.
Qed.

Lemma pg_insert_rows_total (header : list string) (rows : csv) :
  forall total k n k',
    Postgres.insert_rows header rows total k = (Ok n, k') ->
    n = total + length rows.
Proof.
  induction rows as [|row rest IH]; intros total k n k' H.
  - cbn in H. unfold ret in H. injection H as <- _. cbn. lia.
  - cbn [Postgres.insert_rows] in H. unfold bind at 1 in H.
    destruct (Rel.execute_insert_formatted _ _ _ _ k) as [[[]|e] k1];
      [|discriminate H].
    unfold bind at 1 in H.
    destruct (pg_batch_commit_ok (((total + 1) mod 1000) =? 0) k1) as [k2 E].
    rewrite E in H. apply IH in H. cbn [length]. lia.
Qed.

Lemma mongo_load_rows_total (header : list string) (rows : csv) :
  forall total documents s n rest s',
    Mongo.load_rows header rows total documents s = (Ok (n, rest), s') ->
    n = total + length rows.
Proof.
  induction rows as [|row rows' IH]; intros total documents s n rest s' H.
  - cbn in H. unfold ret in H. injection H as <- _ _. cbn. lia.
  - cbn [Mongo.load_rows] in H.
    destruct (1000 <=? length (documents ++ [Mongo.make_doc header row])).
    + unfold bind in H.
      destruct (Mongo.insert_many _ s) as [[[]|e] s1]; [|discriminate H].
      apply IH in H. cbn [length]. lia.
    + apply IH in H. cbn [length]. lia.
Qed.

Lemma sqlite_load_total (header : list string) (rows : csv) (k : Rel.conn)
    (n : nat) (k' : Rel.conn) :
  Sqlite.load_csv_to_database (header :: rows) k = (Ok n, k') ->
  n = length rows.
Proof.
  unfold Sqlite.load_csv_to_database, try_except, bind, lift.
  cbn [next_record fst snd].
  destruct (Rel.execute_begin "BEGIN TRANSACTION" k) as [[[]|e0] k0].
  - destruct (Sqlite.insert_rows header rows 0 k0) as [[m|e] k1] eqn:E.
    + unfold Rel.commit, ret. intros H. injection H as <- _.
      now apply sqlite_insert_rows_total in E.
    + unfold Rel.rollback, raise. discriminate.
  - unfold Rel.rollback, raise. discriminate.
Qed.

Lemma pg_load_total (header0 header : list string) (rows : csv)
    (k : Rel.conn) (n : nat) (k' : Rel.conn) :
  Postgres.load_csv_to_database (header0 :: rows) header k = (Ok n, k') ->
  n = length rows.
Proof.
  unfold Postgres.load_csv_to_database, bind, lift.
  cbn [next_record fst snd].
  destruct (Postgres.insert_rows header rows 0 k) as [[m|e] k1] eqn:E.
  - unfold Rel.commit, ret. intros H. injection H as <- _.
    now apply pg_insert_rows_total in E.
  - discriminate.
Qed.

Lemma mongo_load_total (header : list string) (rows : csv) (s : Mongo.db)
    (n : nat) (s' : Mongo.db) :
  Mongo.load_csv_to_mongodb (header :: rows) s = (Ok n, s') ->
  n = length rows.
Proof.
  unfold Mongo.load_csv_to_mongodb, bind, lift.
  cbn [next_record fst snd].
  destruct (Mongo.load_rows header rows 0 [] s) as [[[m rest]|e] s1] eqn:E;
    [|discriminate].
  apply mongo_load_rows_total in E. cbn [fst snd].
  destruct rest as [|d rest].
  - unfold ret. intros H. injection H as <- _. exact E.
  - destruct (Mongo.insert_many (d :: rest) s1) as [[[]|e] s2];
      [|discriminate].
    unfold ret. intros H. injection H as <- _. exact E.
Qed.

(** C1.  A load that completes without error returns the number of
    records that follow the header: in the SQLite script, in the MongoDB
    script, and in the PostgreSQL script (whose header comes from the
    caller). *)
Theorem load_reports_row_count (header : list string) (rows : csv) :
  (forall k n k',
     Sqlite.load_csv_to_database (header :: rows) k = (Ok n, k') ->
     n = length rows)
  /\ (forall s n s',
        Mongo.load_csv_to_mongodb (header :: rows) s = (Ok n, s') ->
        n = length rows)
  /\ (forall header' k n k',
        Postgres.load_csv_to_database (header :: rows) header' k = (Ok n, k') ->
        n = length rows).
Proof.
  repeat apply conj.
  - apply sqlite_load_total.
  - apply mongo_load_total.
  - intros header'. apply pg_load_total.
Qed.

(** ** Documents of the MongoDB load *)

Lemma get_set_other (k k' : string) (v : Mongo.bson) (d : Mongo.doc) :
  k' <> k -> Mongo.get k (Mongo.set k' v d) = Mongo.get k d.
Proof.
  intros N. induction d as [|[c w] r IH]; cbn.
  - destruct (String.eqb k' k) eqn:E; [|reflexivity].
    apply String.eqb_eq in E. contradiction.
  - destruct (String.eqb c k') eqn:E1; cbn.
    + apply String.eqb_eq in E1. subst c.
      destruct (String.eqb k' k) eqn:E2; [|reflexivity].
      apply String.eqb_eq in E2. contradiction.
    + destruct (String.eqb c k); [reflexivity | exact IH].
Qed.

Lemma get_set_same (k : string) (v : Mongo.bson) (d : Mongo.doc) :
  Mongo.get k (Mongo.set k v d) = Some v.
Proof.
  induction d as [|[c w] r IH]; cbn.
  - now rewrite String.eqb_refl.
  - destruct (String.eqb c k) eqn:E; cbn.
    + now rewrite String.eqb_refl.
    + now rewrite E.
Qed.

Lemma set_new_key (k : string) (v : Mongo.bson) (d : Mongo.doc) :
  ~ In k (map fst d) -> Mongo.set k v d = (d ++ [(k, v)])%list.
Proof.
  induction d as [|[c w] r IH]; cbn; intros N.
  - reflexivity.
  - destruct (String.eqb c k) eqn:E.
    + apply String.eqb_eq in E. tauto.
    + rewrite IH by tauto. reflexivity.
Qed.

Lemma fill_doc_beyond (header : list string) (row : list string) :
  forall i d, length row <= i -> Mongo.fill_doc header i row d = d.
Proof.
  induction header as [|c rest IH]; intros i d L; cbn [Mongo.fill_doc].
  - reflexivity.
  - assert (E : (i <? length row) = false) by (apply Nat.ltb_ge; lia).
    rewrite E. apply IH. lia.
Qed.

Lemma fill_doc_truncated (header : list string) (row : list string) :
  forall i d,
    Mongo.fill_doc header i row d
    = Mongo.fill_doc (firstn (length row - i) header) i row d.
Proof.
  induction header as [|c rest IH]; intros i d.
  - now rewrite firstn_nil.
  - destruct (i <? length row) eqn:E.
    + apply Nat.ltb_lt in E.
      replace (length row - i) with (S (length row - S i)) by lia.
      cbn [firstn Mongo.fill_doc].
      apply Nat.ltb_lt in E. rewrite E. apply IH.
    + apply Nat.ltb_ge in E.
      replace (length row - i) with 0 by lia.
      cbn [firstn]. rewrite fill_doc_beyond by exact E. reflexivity.
Qed.

Lemma skipn_nth_cons (row : list string) (i : nat) :
  i < length row -> skipn i row = nth i row "" :: skipn (S i) row.
Proof.
  revert i; induction row as [|x r IH]; intros i L; cbn in L.
  - lia.
  - destruct i as [|i]; [reflexivity|].
    cbn [skipn nth]. rewrite (IH i) by lia. reflexivity.
Qed.

Lemma fill_doc_zip (header : list string) (row : list string) :
  forall i d,
    NoDup header ->
    (forall c, In c header -> ~ In c (map fst d)) ->
    Mongo.fill_doc header i row d = (d ++ zipped header (skipn i row))%list.
Proof.
  unfold zipped.
  induction header as [|c rest IH]; intros i d ND Fresh.
  - cbn. now rewrite app_nil_r.
  - cbn [Mongo.fill_doc]. inversion ND as [|? ? Nc ND']; subst.
    destruct (i <? length row) eqn:E.
    + apply Nat.ltb_lt in E. rewrite (skipn_nth_cons row i E).
      rewrite set_new_key by (apply Fresh; now left).
      rewrite IH; [| exact ND' |].
      * cbn. rewrite <- app_assoc. reflexivity.
      * intros c' I. rewrite map_app, in_app_iff. cbn.
        intros [H | [H | []]].
        -- apply (Fresh c'); [now right | exact H].
        -- subst c'. contradiction.
    + apply Nat.ltb_ge in E. rewrite fill_doc_beyond by lia.
      rewrite skipn_all2 by exact E.
      destruct rest; cbn; now rewrite app_nil_r.
Qed.

Lemma make_doc_zip (header row : list string) :
  NoDup header -> Mongo.make_doc header row = zipped header row.
Proof.
  intros ND. unfold Mongo.make_doc.
  rewrite (fill_doc_zip header row 0 []); [reflexivity | exact ND |].
  intros c _ [].
Qed.

Lemma make_doc_truncated (header row : list string) :
  Mongo.make_doc header row
  = Mongo.make_doc (firstn (length row) header) row.
Proof.
  unfold Mongo.make_doc. rewrite fill_doc_truncated.
  now rewrite Nat.sub_0_r.
Qed.

Lemma fill_doc_get_other (k : string) (header row : list string) :
  ~ In k header ->
  forall i d, Mongo.get k (Mongo.fill_doc header i row d) = Mongo.get k d.
Proof.
  induction header as [|c rest IH]; intros N i d; cbn [Mongo.fill_doc].
  - reflexivity.
  - rewrite IH by (cbn in N; tauto).
    destruct (i <? length row); [|reflexivity].
    apply get_set_other. cbn in N. tauto.
Qed.

Lemma make_doc_no_id (header row : list string) :
  ~ In "_id" header -> Mongo.get "_id" (Mongo.make_doc header row) = None.
Proof.
  intros N. unfold Mongo.make_doc. now rewrite fill_doc_get_other.
Qed.

(** ** What the MongoDB load stores *)

Lemma with_ids_app (oid : nat) (xs ys : list Mongo.doc) :
  with_ids oid (xs ++ ys)
  = (with_ids oid xs ++ with_ids (oid + length xs) ys)%list.
Proof.
  revert oid; induction xs as [|x r IH]; intros oid; cbn.
  - now rewrite Nat.add_0_r.
  - rewrite IH. now rewrite Nat.add_succ_r.
Qed.

Lemma store_all_fresh (documents : list Mongo.doc) :
  Forall (fun d => Mongo.get "_id" d = None) documents ->
  forall stored oid,
    Mongo.store_all documents stored oid
    = ((stored ++ with_ids oid documents)%list, oid + length documents, true).
Proof.
  induction 1 as [|d rest Hd _ IH]; intros stored oid.
  - cbn. now rewrite app_nil_r, Nat.add_0_r.
  - cbn [Mongo.store_all]. rewrite Hd, IH. cbn [with_ids length].
    rewrite <- app_assoc, Nat.add_succ_r. reflexivity.
Qed.

Lemma insert_many_fresh (documents : list Mongo.doc) (s : Mongo.db) :
  documents <> [] ->
  Forall (fun d => Mongo.get "_id" d = None) documents ->
  Mongo.insert_many documents s
  = (Ok tt,
     Mongo.mkDb (Some (coll s ++ with_ids (Mongo.next_oid s) documents)%list)
                (Mongo.next_oid s + length documents)
                (Mongo.log s ++ [Mongo.InsertMany documents])).
Proof.
  intros NE F. unfold Mongo.insert_many.
  destruct documents as [|d rest]; [contradiction|].
  rewrite store_all_fresh by exact F. reflexivity.
Qed.

Lemma load_rows_stores (header : list string) (rows : csv) :
  ~ In "_id" header ->
  forall total documents s,
    Forall (fun d => Mongo.get "_id" d = None) documents ->
    exists rest s',
      Mongo.load_rows header rows total documents s
      = (Ok (total + length rows, rest), s')
      /\ Forall (fun d => Mongo.get "_id" d = None) rest
      /\ (coll s' ++ with_ids (Mongo.next_oid s') rest
          = coll s ++ with_ids (Mongo.next_oid s)
                               (documents ++ map (Mongo.make_doc header) rows))%list.
Proof.
  intros N. induction rows as [|row rows' IH]; intros total documents s F.
  - exists documents, s. cbn. rewrite Nat.add_0_r, app_nil_r. auto.
  - cbn [Mongo.load_rows].
    set (batch := (documents ++ [Mongo.make_doc header row])%list).
    assert (Fb : Forall (fun d => Mongo.get "_id" d = None) batch).
    { apply Forall_app. split; [exact F|].
      constructor; [now apply make_doc_no_id | constructor]. }
    assert (Eb : (documents ++ map (Mongo.make_doc header) (row :: rows')
                  = batch ++ map (Mongo.make_doc header) rows')%list).
    { unfold batch. cbn. now rewrite <- app_assoc. }
    rewrite Eb. cbn [length].
    replace (total + S (length rows')) with (total + 1 + length rows') by lia.
    destruct (1000 <=? length batch).
    + unfold bind. rewrite insert_many_fresh; [| | exact Fb].
      2:{ unfold batch. destruct documents; discriminate. }
      destruct (IH (total + 1) [] 
                   (Mongo.mkDb (Some (coll s ++ with_ids (Mongo.next_oid s) batch)%list)
                               (Mongo.next_oid s + length batch)
                               (Mongo.log s ++ [Mongo.InsertMany batch]))
                   (Forall_nil _))
        as (rest & s' & E & Fr & C).
      exists rest, s'. rewrite E. repeat split; [exact Fr|].
      rewrite C. unfold coll at 1. cbn [Mongo.utenti Mongo.next_oid app].
      rewrite with_ids_app, app_assoc. reflexivity.
    + destruct (IH (total + 1) batch s Fb) as (rest & s' & E & Fr & C).
      exists rest, s'. rewrite E. auto.
Qed.

Lemma mongo_load_stores (header : list string) (rows : csv) (s : Mongo.db) :
  ~ In "_id" header ->
  exists s',
    Mongo.load_csv_to_mongodb (header :: rows) s = (Ok (length rows), s')
    /\ coll s'
       = (coll s ++ with_ids (Mongo.next_oid s)
                             (map (Mongo.make_doc header) rows))%list.
Proof.
  intros N. unfold Mongo.load_csv_to_mongodb, bind, lift.
  cbn [next_record fst snd].
  destruct (load_rows_stores header rows N 0 [] s (Forall_nil _))
    as (rest & s' & E & Fr & C).
  rewrite E. cbn [fst snd plus app] in *.
  destruct rest as [|d rest].
  - exists s'. unfold ret. split; [reflexivity|].
    cbn in C. now rewrite app_nil_r in C.
  - rewrite insert_many_fresh; [| discriminate | exact Fr].
    eexists. unfold ret. split; [reflexivity|].
    unfold coll at 1. cbn [Mongo.utenti]. exact C.
Qed.

(** ** Batches of the MongoDB load *)

Lemma insert_many_log (documents : list Mongo.doc) (s : Mongo.db) :
  Mongo.log (snd (Mongo.insert_many documents s))
  = (Mongo.log s ++ [Mongo.InsertMany documents])%list.
Proof.
  unfold Mongo.insert_many. destruct documents as [|d rest]; [reflexivity|].
  destruct (Mongo.store_all _ _ _) as [[c oid] [|]]; reflexivity.
Qed.

Lemma load_rows_batches (header : list string) (rows : csv) :
  forall total documents s,
    length documents < 1000 ->
    exists bs,
      Mongo.log (snd (Mongo.load_rows header rows total documents s))
      = (Mongo.log s ++ map Mongo.InsertMany bs)%list
      /\ Forall (fun b => length b = 1000) bs
      /\ (forall n rest,
            fst (Mongo.load_rows header rows total documents s) = Ok (n, rest) ->
            length rest < 1000
            /\ (concat bs ++ rest
                = documents ++ map (Mongo.make_doc header) rows)%list).
Proof.
  induction rows as [|row rows' IH]; intros total documents s L.
  - exists []. cbn. rewrite !app_nil_r. repeat split; auto.
    + injection H as _ <-. exact L.
    + injection H as _ <-. reflexivity.
  - cbn [Mongo.load_rows].
    set (batch := (documents ++ [Mongo.make_doc header row])%list).
    assert (Lb : length batch = S (length documents)).
    { unfold batch. rewrite length_app. cbn. lia. }
    assert (Eb : (documents ++ map (Mongo.make_doc header) (row :: rows')
                  = batch ++ map (Mongo.make_doc header) rows')%list).
    { unfold batch. cbn. now rewrite <- app_assoc. }
    rewrite Eb.
    destruct (1000 <=? length batch) eqn:Full.
    + apply Nat.leb_le in Full. unfold bind.
      pose proof (insert_many_log batch s) as Lg.
      destruct (Mongo.insert_many batch s) as [[[]|e] s1]; cbn [snd] in Lg.
      * destruct (IH (total + 1) [] s1) as (bs & Elog & Fb & Hok);
          [cbn; lia|].
        exists (batch :: bs). rewrite Elog, Lg. cbn [map concat].
        rewrite <- app_assoc. repeat split.
        -- constructor; [lia | exact Fb].
        -- now apply (Hok n rest).
        -- rewrite <- app_assoc. f_equal. now apply (Hok n rest).
      * exists [batch]. cbn [snd fst map]. rewrite Lg. repeat split.
        -- constructor; [lia | constructor].
        -- discriminate H.
        -- discriminate H.
    + apply Nat.leb_gt in Full. apply IH. exact Full.
Qed.

Lemma Forall_removelast {A : Type} (P : A -> Prop) (l : list A) :
  Forall P l -> Forall P (removelast l).
Proof.
  induction 1 as [|x r Hx Hr IH]; cbn; [constructor|].
  destruct r; [constructor | now constructor].
Qed.

Lemma mongo_load_hands_over (header : list string) (rows : csv)
    (s s' : Mongo.db) (n : nat) :
  Mongo.load_csv_to_mongodb (header :: rows) s = (Ok n, s') ->
  exists bs,
    Mongo.log s' = (Mongo.log s ++ map Mongo.InsertMany bs)%list
    /\ concat bs = map (Mongo.make_doc header) rows.
Proof.
  unfold Mongo.load_csv_to_mongodb, bind, lift. cbn [next_record fst snd].
  destruct (load_rows_batches header rows 0 [] s) as (bs & Elog & _ & Hok);
    [cbn; lia|].
  destruct (Mongo.load_rows header rows 0 [] s) as [[[m rest]|e] s1];
    cbn [fst snd] in *; [|discriminate].
  destruct (Hok m rest eq_refl) as [_ Ec]. cbn [app] in Ec.
  destruct rest as [|d rest].
  - unfold ret. intros H. injection H as _ <-.
    exists bs. split; [exact Elog|]. now rewrite app_nil_r in Ec.
  - pose proof (insert_many_log (d :: rest) s1) as Lg.
    destruct (Mongo.insert_many (d :: rest) s1) as [[[]|e] s2];
      cbn [snd] in Lg; [|discriminate].
    unfold ret. intros H. injection H as _ <-.
    exists (bs ++ [d :: rest])%list. split.
    + rewrite Lg, Elog, map_app, <- app_assoc. reflexivity.
    + rewrite concat_app. cbn [concat]. rewrite app_nil_r. exact Ec.
Qed.

(** ** What the relational loads do with a row *)

Lemma execute_insert_arity (sql : string) (cols : list string) (nph : nat)
    (params : list string) (k : Rel.conn) :
  length params <> nph ->
  exists e,
    Rel.execute_insert sql cols nph params k
    = (Raise e, Rel.logged (Rel.Execute sql params) k).
Proof.
  intros N. unfold Rel.execute_insert.
  destruct (negb (Rel.prepares cols nph k)); [eauto|].
  apply Nat.eqb_neq in N. rewrite N. cbn. eauto.
Qed.

Lemma execute_insert_formatted_arity (sql : string) (cols : list string)
    (nph : nat) (params : list string) (k : Rel.conn) :
  length params <> nph ->
  Rel.execute_insert_formatted sql cols nph params k
  = (Raise BindingMismatch, Rel.logged (Rel.Execute sql params) k).
Proof.
  intros N. unfold Rel.execute_insert_formatted.
  apply Nat.eqb_neq in N. rewrite N. reflexivity.
Qed.

Lemma sqlite_insert_rows_app (header : list string) (xs ys : csv) :
  forall total k,
    Sqlite.insert_rows header (xs ++ ys)%list total k
    = (t <- Sqlite.insert_rows header xs total ;;
       Sqlite.insert_rows header ys t) k.
Proof.
  induction xs as [|x r IH]; intros total k.
  - reflexivity.
  - cbn [app Sqlite.insert_rows]. unfold bind in *.
    destruct (Rel.execute_insert _ _ _ _ k) as [[[]|e] k1]; [|reflexivity].
    destruct (batch_commit_ok (((total + 1) mod 1000) =? 0) k1) as [k2 E].
    unfold bind in E. rewrite E. apply IH.
Qed.

Lemma pg_insert_rows_app (header : list string) (xs ys : csv) :
  forall total k,
    Postgres.insert_rows header (xs ++ ys)%list total k
    = (t <- Postgres.insert_rows header xs total ;;
       Postgres.insert_rows header ys t) k.
Proof.
  induction xs as [|x r IH]; intros total k.
  - reflexivity.
  - cbn [app Postgres.insert_rows]. unfold bind in *.
    destruct (Rel.execute_insert_formatted _ _ _ _ k) as [[[]|e] k1];
      [|reflexivity].
    destruct (pg_batch_commit_ok (((total + 1) mod 1000) =? 0) k1) as [k2 E].
    rewrite E. apply IH.
Qed.

Lemma sqlite_load_stops_at (header : list string) (good : csv)
    (bad : list string) (rest : csv) (k k1 : Rel.conn) (n : nat) :
  (Rel.execute_begin "BEGIN TRANSACTION" ;;
   Sqlite.insert_rows header good 0) k = (Ok n, k1) ->
  length bad <> length header ->
  exists e,
    Rel.execute_insert (Sqlite.insert_sql header)
                       (map Sqlite.safe_col_name header) (length header) bad k1
    = (Raise e, Rel.logged (Rel.Execute (Sqlite.insert_sql header) bad) k1)
    /\ Sqlite.load_csv_to_database (header :: good ++ bad :: rest) k
       = (Raise e,
          snd (Rel.rollback
                 (Rel.logged (Rel.Execute (Sqlite.insert_sql header) bad) k1))).
Proof.
  intros G Bad.
  destruct (execute_insert_arity (Sqlite.insert_sql header)
              (map Sqlite.safe_col_name header) (length header) bad k1 Bad)
    as [e E].
  exists e. split; [exact E|].
  unfold Sqlite.load_csv_to_database, try_except, bind, lift.
  cbn [next_record fst snd].
  unfold bind in G.
  destruct (Rel.execute_begin "BEGIN TRANSACTION" k) as [[[]|e0] k0];
    [|discriminate G].
  rewrite sqlite_insert_rows_app. unfold bind at 1. rewrite G.
  cbn [Sqlite.insert_rows]. unfold bind at 1. rewrite E.
  unfold Rel.rollback, raise. reflexivity.
Qed.

Lemma pg_load_stops_at (header0 header : list string) (good : csv)
    (bad : list string) (rest : csv) (k k1 : Rel.conn) (n : nat) :
  Postgres.insert_rows header good 0 k = (Ok n, k1) ->
  length bad <> length header ->
  Rel.execute_insert_formatted (Postgres.insert_sql header)
    (map Postgres.safe_col_name header) (length header) bad k1
  = (Raise BindingMismatch,
     Rel.logged (Rel.Execute (Postgres.insert_sql header) bad) k1)
  /\ Postgres.load_csv_to_database (header0 :: good ++ bad :: rest) header k
     = (Raise BindingMismatch,
        Rel.logged (Rel.Execute (Postgres.insert_sql header) bad) k1).
Proof.
  intros G Bad.
  pose proof (execute_insert_formatted_arity (Postgres.insert_sql header)
                (map Postgres.safe_col_name header) (length header) bad k1 Bad)
    as E.
  split; [exact E|].
  unfold Postgres.load_csv_to_database, bind, lift.
  cbn [next_record fst snd].
  rewrite pg_insert_rows_app. unfold bind at 1. rewrite G.
  cbn [Postgres.insert_rows]. unfold bind at 1. rewrite E. reflexivity.
Qed.

(** C9, as stated, fails on the relational scripts: a record shorter than
    the header is handed to the insert statement as it is, the number of
    bound values differs from the number of placeholders, and the load
    ends with that exception; the transaction is rolled back in the SQLite
    script.  The MongoDB script stores the record without the missing
    fields. *)
Lemma short_row_aborts_relational_load :
  let header := ["Name"; "Website"] in
  let k := created header (Rel.mkConn None []) in
  fst (Sqlite.load_csv_to_database [header; ["a"; "https://x"]; ["b"]] k)
  = Raise BindingMismatch
  /\ stored_rows
       (snd (Sqlite.load_csv_to_database [header; ["a"; "https://x"]; ["b"]] k))
     = []
  /\ fst (Postgres.load_csv_to_database [header; ["a"; "https://x"]; ["b"]]
                                        header k)
     = Raise BindingMismatch
  /\ Mongo.make_doc header ["b"] = [("Name", Mongo.VStr "b")].
Proof. cbv zeta. repeat split; vm_compute; reflexivity. Qed.

(** C9, amended.  In the MongoDB script a record shorter than the header
    gives the document built from the header cut to the record's length
    (for a header without repeated names, the pairs of [zip(header, row)]
    with the values converted): the missing trailing fields are left out,
    and a load that completes has handed one such document per record to
    [insert_many], in the order of the file.  In the SQLite and PostgreSQL
    scripts a record whose number of fields differs from the header's is
    not stored: once the statements before it have gone through, its
    insert raises, the load ends with that exception, and the SQLite
    script rolls the open transaction back first while the PostgreSQL
    script leaves the connection as the failed insert left it.  The
    relational part is stated for headers whose names the statement holds
    as plain identifiers: no double quote in a name for the SQLite script,
    storage names of lower-case letters, digits and underscores for the
    PostgreSQL script. *)
Theorem short_rows_by_backend (header : list string) :
  (forall row,
     Mongo.make_doc header row
     = Mongo.make_doc (firstn (length row) header) row)
  /\ (NoDup header ->
      forall row, Mongo.make_doc header row = zipped header row)
  /\ (forall rows s n s',
        Mongo.load_csv_to_mongodb (header :: rows) s = (Ok n, s') ->
        exists bs,
          Mongo.log s' = (Mongo.log s ++ map Mongo.InsertMany bs)%list
          /\ concat bs = map (Mongo.make_doc header) rows)
  /\ (Forall (fun c => no_quote c = true) header ->
      forall good bad rest k n k1,
        (Rel.execute_begin "BEGIN TRANSACTION" ;;
         Sqlite.insert_rows header good 0) k = (Ok n, k1) ->
        length bad <> length header ->
        exists e,
          Rel.execute_insert (Sqlite.insert_sql header)
            (map Sqlite.safe_col_name header) (length header) bad k1
          = (Raise e,
             Rel.logged (Rel.Execute (Sqlite.insert_sql header) bad) k1)
          /\ Sqlite.load_csv_to_database (header :: good ++ bad :: rest) k
             = (Raise e,
                snd (Rel.rollback
                       (Rel.logged
                          (Rel.Execute (Sqlite.insert_sql header) bad) k1))))
  /\ (Forall (fun c => bare_word (Postgres.safe_col_name c) = true) header ->
      forall header0 good bad rest k n k1,
        Postgres.insert_rows header good 0 k = (Ok n, k1) ->
        length bad <> length header ->
        Rel.execute_insert_formatted (Postgres.insert_sql header)
          (map Postgres.safe_col_name header) (length header) bad k1
        = (Raise BindingMismatch,
           Rel.logged (Rel.Execute (Postgres.insert_sql header) bad) k1)
        /\ Postgres.load_csv_to_database (header0 :: good ++ bad :: rest)
                                         header k
           = (Raise BindingMismatch,
              Rel.logged (Rel.Execute (Postgres.insert_sql header) bad) k1)).
Proof.
  repeat apply conj.
  - apply make_doc_truncated.
  - intros ND row. now apply make_doc_zip.
  - intros rows s n s'. apply mongo_load_hands_over.
  - intros _ good bad rest k n k1. apply sqlite_load_stops_at.
  - intros _ header0 good bad rest k n k1. apply pg_load_stops_at.
Qed.

(** One full record and one short record, in the SQLite and in the
    PostgreSQL script, on the table [create_table] leaves. *)
Lemma short_rows_by_backend_witness :
  (exists e,
     Sqlite.load_csv_to_database
       [["Name"; "Website"]; ["a"; "https://x"]; ["b"]]
       (created ["Name"; "Website"] (Rel.mkConn None []))
     = (Raise e,
        Rel.mkConn
          (Some (Rel.mkTable ["id"; "name"; "website"] [] []))
          (Rel.log (created ["Name"; "Website"] (Rel.mkConn None []))
             ++ [Rel.Execute "BEGIN TRANSACTION" [];
                 Rel.Execute (Sqlite.insert_sql ["Name"; "Website"])
                             ["a"; "https://x"];
                 Rel.Execute (Sqlite.insert_sql ["Name"; "Website"]) ["b"];
                 Rel.Rollback])))
  /\ fst (Postgres.load_csv_to_database
            [["Name"; "Website"]; ["a"; "https://x"]; ["b"]]
            ["Name"; "Website"]
            (created ["Name"; "Website"] (Rel.mkConn None [])))
     = Raise BindingMismatch.
Proof.
  pose proof (short_rows_by_backend ["Name"; "Website"]) as (_ & _ & _ & S & P).
  split.
  - destruct (S ltac:(repeat constructor) [["a"; "https://x"]] ["b"] []
                (created ["Name"; "Website"] (Rel.mkConn None [])) _ _
                eq_refl ltac:(cbn; discriminate))
      as (e & _ & L).
    exists e. exact L.
  - destruct (P ltac:(repeat constructor) ["Name"; "Website"]
                [["a"; "https://x"]] ["b"] []
                (created ["Name"; "Website"] (Rel.mkConn None [])) _ _
                eq_refl ltac:(cbn; discriminate))
      as (_ & L).
    cbn [app] in L. rewrite L. reflexivity.
Defined.

(** Two records after the header, loaded into the table just created. *)
Lemma load_reports_row_count_witness :
  fst (Sqlite.load_csv_to_database
         [["Name"; "Website"]; ["a"; "https://x"]; ["b"; "http://y"]]
         (created ["Name"; "Website"] (Rel.mkConn None [])))
  = Ok 2.
Proof.
  destruct (Sqlite.load_csv_to_database
              [["Name"; "Website"]; ["a"; "https://x"]; ["b"; "http://y"]]
              (created ["Name"; "Website"] (Rel.mkConn None [])))
    as [[n|e] k'] eqn:E.
  - cbn [fst]. f_equal.
    exact (proj1 (load_reports_row_count _ _) _ _ _ E).
  - vm_compute in E. discriminate E.
Defined.

(** ** The count query *)

Lemma sqlite_count_no_match (k : Rel.conn) :
  Sqlite.not_found (Sqlite.find_website_col (listed_columns k)) = true ->
  Sqlite.count_https_websites k
  = (Ok 0, Rel.logged (Rel.Execute "PRAGMA table_info(utenti)" []) k).
Proof.
  intros H. unfold Sqlite.count_https_websites, bind, Rel.execute_columns.
  fold (listed_columns k). rewrite H. reflexivity.
Qed.

Lemma pg_count_no_match (k : Rel.conn) :
  Postgres.not_found (Postgres.find_email_col (listed_columns k)) = true ->
  Postgres.count_com_emails k
  = (Ok 0, Rel.logged (Rel.Execute Postgres.columns_sql []) k).
Proof.
  intros H. unfold Postgres.count_com_emails, bind, Rel.execute_columns.
  fold (listed_columns k). rewrite H. reflexivity.
Qed.

Lemma mongo_count_no_match (s : Mongo.db) :
  Mongo.not_found (Mongo.date_field_of (first_document s)) = true ->
  Mongo.count_2020_subscriptions s = (Ok 0, mongo_logged Mongo.FindOne s).
Proof.
  intros H. unfold Mongo.count_2020_subscriptions, bind, Mongo.find_one.
  fold (first_document s). rewrite H. reflexivity.
Qed.

Lemma sqlite_main_no_match (f : csv) (c : nat) (k0 k1 : Rel.conn) (n : nat) :
  (Sqlite.create_table f c ;; Sqlite.load_csv_to_database f) k0 = (Ok n, k1) ->
  Sqlite.not_found (Sqlite.find_website_col (listed_columns k1)) = true ->
  Sqlite.main (Some f) k0
  = (Some (n, 0), Rel.logged (Rel.Execute "PRAGMA table_info(utenti)" []) k1).
Proof.
  intros R H. unfold Sqlite.main, Sqlite.get_csv_column_count.
  destruct f as [|header rows].
  - vm_compute in R. discriminate R.
  - cbn [next_record]. unfold bind in *.
    change (Sqlite.create_table (header :: rows) (length header))
      with (Sqlite.create_table (header :: rows) c).
    destruct (Sqlite.create_table (header :: rows) c k0) as [[[]|e] k'];
      [|discriminate R].
    rewrite R. rewrite (sqlite_count_no_match k1 H). reflexivity.
Qed.

Lemma mongo_main_no_match (f : csv) (s0 s1 : Mongo.db) (n : nat) :
  (Mongo.drop_collection ;; Mongo.load_csv_to_mongodb f) s0 = (Ok n, s1) ->
  Mongo.not_found (Mongo.date_field_of (first_document s1)) = true ->
  Mongo.main (Some f) s0 = (Some (n, 0), mongo_logged Mongo.FindOne s1).
Proof.
  intros R H. unfold Mongo.main. unfold bind at 1. unfold bind at 1 in R.
  destruct (Mongo.drop_collection s0) as [[[]|e] s']; [|discriminate R].
  unfold bind at 1. rewrite R.
  unfold bind at 1. rewrite (mongo_count_no_match s1 H). reflexivity.
Qed.

(** C6.  When the column search finds nothing, the count function returns
    zero and the only call it has made is the one that lists the columns
    (or fetches the example document) for the search: no count query is
    issued.  The run goes on: [main] prints the rows loaded and a count of
    zero.  SQLite, MongoDB and PostgreSQL scripts. *)
Theorem no_match_counts_zero :
  (forall k,
     Sqlite.not_found (Sqlite.find_website_col (listed_columns k)) = true ->
     Sqlite.count_https_websites k
     = (Ok 0, Rel.logged (Rel.Execute "PRAGMA table_info(utenti)" []) k))
  /\ (forall s,
        Mongo.not_found (Mongo.date_field_of (first_document s)) = true ->
        Mongo.count_2020_subscriptions s
        = (Ok 0, mongo_logged Mongo.FindOne s))
  /\ (forall k,
        Postgres.not_found (Postgres.find_email_col (listed_columns k)) = true ->
        Postgres.count_com_emails k
        = (Ok 0, Rel.logged (Rel.Execute Postgres.columns_sql []) k))
  /\ (forall f c k0 k1 n,
        (Sqlite.create_table f c ;; Sqlite.load_csv_to_database f) k0
        = (Ok n, k1) ->
        Sqlite.not_found (Sqlite.find_website_col (listed_columns k1)) = true ->
        Sqlite.main (Some f) k0
        = (Some (n, 0),
           Rel.logged (Rel.Execute "PRAGMA table_info(utenti)" []) k1))
  /\ (forall f s0 s1 n,
        (Mongo.drop_collection ;; Mongo.load_csv_to_mongodb f) s0
        = (Ok n, s1) ->
        Mongo.not_found (Mongo.date_field_of (first_document s1)) = true ->
        Mongo.main (Some f) s0 = (Some (n, 0), mongo_logged Mongo.FindOne s1)).
Proof.
  repeat apply conj.
  - apply sqlite_count_no_match.
  - apply mongo_count_no_match.
  - apply pg_count_no_match.
  - apply sqlite_main_no_match.
  - apply mongo_main_no_match.
Qed.

(** A file without a website or subscription-date column. *)
Lemma no_match_counts_zero_witness :
  fst (Sqlite.main (Some [["Name"; "Email"]; ["a"; "a@x.com"]])
                   (Rel.mkConn None []))
  = Some (1, 0)
  /\ fst (Mongo.main (Some [["Name"; "Email"]; ["a"; "a@x.com"]])
                     (Mongo.mkDb None 0 []))
     = Some (1, 0).
Proof.
  destruct no_match_counts_zero as (_ & _ & _ & S & M).
  split.
  - erewrite (S _ 2 _ _ 1); [reflexivity | vm_compute; reflexivity
                             | vm_compute; reflexivity].
  - erewrite (M _ _ _ 1); [reflexivity | vm_compute; reflexivity
                           | vm_compute; reflexivity].
Defined.

(** ** A source with a header only *)

Lemma sqlite_create_table_result (header : list string) (rows : csv)
    (n : nat) (k k1 : Rel.conn) :
  Sqlite.create_table (header :: rows) n k = (Ok tt, k1) ->
  k1 = created header k.
Proof.
  destruct (Rel.has_dup (map Str.lower ("id" :: map Sqlite.safe_col_name header)))
    eqn:D.
  - unfold Sqlite.create_table, bind, lift, Rel.execute_drop.
    cbn [next_record fst]. unfold Rel.execute_create.
    cbn [Rel.utenti]. rewrite D. discriminate.
  - rewrite (sqlite_create_table_ok header rows n k D). congruence.
Qed.







(** ** Values of date columns *)

Lemma get_zipped (header : list string) :
  NoDup header ->
  forall row i col_name,
    nth_error header i = Some col_name -> i < length row ->
    Mongo.get col_name (zipped header row)
    = Some (Mongo.convert col_name (nth i row "")).
Proof.
  unfold zipped.
  induction 1 as [|c rest Nc ND IH]; intros row i col_name Hn L.
  - destruct i; discriminate Hn.
  - destruct row as [|v row]; [cbn in L; lia|].
    destruct i as [|i]; cbn in Hn |- *.
    + injection Hn as ->. now rewrite String.eqb_refl.
    + destruct (String.eqb c col_name) eqn:E.
      * apply String.eqb_eq in E. subst c.
        apply nth_error_In in Hn. contradiction.
      * apply IH; [exact Hn | cbn in L; lia].
Qed.

(** C10.  In a column whose name contains [date] or [data], the MongoDB
    load stores an empty text as [None]; a non-empty text that
    [strptime] refuses is stored as it is; a text that [strptime] accepts
    is stored as the date.  With a header without repeated names, that is
    the value found in the document under the column's name. *)
Theorem date_column_values (col_name : string) :
  Mongo.is_date_column col_name = true ->
  Mongo.convert col_name "" = Mongo.VNone
  /\ (forall value,
        value <> "" -> Mongo.strptime value = None ->
        Mongo.convert col_name value = Mongo.VStr value)
  /\ (forall value d,
        Mongo.strptime value = Some d ->
        Mongo.convert col_name value = Mongo.VDate d)
  /\ (forall header row i,
        NoDup header -> nth_error header i = Some col_name ->
        i < length row ->
        Mongo.get col_name (Mongo.make_doc header row)
        = Some (Mongo.convert col_name (nth i row ""))).
Proof.
  intros D. unfold Mongo.convert. rewrite D. repeat apply conj.
  - reflexivity.
  - intros value NE P. rewrite P.
    destruct value; [contradiction | reflexivity].
  - intros value d P. rewrite P.
    destruct value; [discriminate P | reflexivity].
  - intros header row i ND Hn L. rewrite make_doc_zip by exact ND.
    rewrite (get_zipped header ND row i col_name Hn L).
    unfold Mongo.convert. now rewrite D.
Qed.

(** The column [Subscription Date] with an empty, a malformed and a
    well-formed value. *)
Lemma date_column_values_witness :
  Mongo.convert "Subscription Date" "" = Mongo.VNone
  /\ Mongo.convert "Subscription Date" "15/06/2020" = Mongo.VStr "15/06/2020"
  /\ Mongo.convert "Subscription Date" "2020-06-15"
     = Mongo.VDate (Mongo.mkDate 2020 6 15)
  /\ Mongo.get "Subscription Date"
       (Mongo.make_doc ["Name"; "Subscription Date"] ["a"; ""])
     = Some Mongo.VNone.
Proof.
  destruct (date_column_values "Subscription Date") as (E & R & P & G).
  - vm_compute. reflexivity.
  - split; [exact E | split; [| split]].
    + apply R; [discriminate | vm_compute; reflexivity].
    + apply P. vm_compute. reflexivity.
    + rewrite (G ["Name"; "Subscription Date"] ["a"; ""] 1).
      * cbn [nth]. rewrite E. reflexivity.
      * repeat constructor; cbn; intuition discriminate.
      * reflexivity.
      * cbn. lia.
Defined.

(** * Further properties of the scripts *)

(** ** Batches of the relational loads *)

Lemma mod_1000_wrap (t : nat) :
  (t + 1) mod 1000 = 0 -> t mod 1000 + 1 = 1000.
Proof.
  intros H.
  pose proof (Nat.div_mod_eq t 1000) as Dt.
  pose proof (Nat.mod_upper_bound t 1000 ltac:(discriminate)) as Bt.
  pose proof (Nat.div_mod_eq (t + 1) 1000) as Ds.
  rewrite H in Ds. lia.
Qed.

Lemma mod_1000_step (t : nat) :
  (t + 1) mod 1000 <> 0 -> (t + 1) mod 1000 = t mod 1000 + 1.
Proof.
  intros H.
  pose proof (Nat.div_mod_eq t 1000) as Dt.
  pose proof (Nat.mod_upper_bound t 1000 ltac:(discriminate)) as Bt.
  destruct (Nat.eq_dec (t mod 1000 + 1) 1000) as [E|NE].
  - exfalso. apply H. symmetry.
    apply (Nat.mod_unique (t + 1) 1000 (t / 1000 + 1) 0); lia.
  - symmetry.
    apply (Nat.mod_unique (t + 1) 1000 (t / 1000) (t mod 1000 + 1)); lia.
Qed.

Lemma with_row_effect (cols : list string) (nph : nat)
    (params : list string) (k : Rel.conn) (l : list Rel.call) :
  Rel.prepares cols nph k = true ->
  let k1 := Rel.mkConn (Rel.with_row cols params (Rel.utenti k)) l in
  committed_rows k1 = committed_rows k
  /\ length (pending_rows k1) = S (length (pending_rows k)).
Proof.
  unfold Rel.prepares, committed_rows, pending_rows. cbn [Rel.utenti].
  destruct (Rel.utenti k) as [t|]; [|discriminate].
  intros _. cbn [Rel.with_row Rel.committed Rel.pending].
  split; [reflexivity|]. rewrite length_app. cbn. lia.
Qed.


Lemma execute_insert_formatted_effect (sql : string) (cols : list string)
    (nph : nat) (params : list string) (k k1 : Rel.conn) :
  Rel.execute_insert_formatted sql cols nph params k = (Ok tt, k1) ->
  length params = nph
  /\ committed_rows k1 = committed_rows k
  /\ length (pending_rows k1) = S (length (pending_rows k)).
Proof.
  unfold Rel.execute_insert_formatted.
  destruct (length params =? nph) eqn:L; cbn [negb]; [|discriminate].
  destruct (Rel.prepares cols nph k) eqn:P; cbn [negb];
    [|discriminate].
  intros H. injection H as <-. split; [now apply Nat.eqb_eq|].
  now apply (with_row_effect cols nph).
Qed.

Lemma commit_effect (k : Rel.conn) :
  exists k1,
    Rel.commit k = (Ok tt, k1)
    /\ length (committed_rows k1)
       = length (committed_rows k) + length (pending_rows k)
    /\ pending_rows k1 = [].
Proof.
  unfold Rel.commit, committed_rows, pending_rows. eexists.
  split; [reflexivity|]. cbn [Rel.utenti].
  destruct (Rel.utenti k) as [t|]; [|auto].
  unfold Rel.visible. cbn. now rewrite length_app.
Qed.


Lemma batched_after_commit (total : nat) (k k1 : Rel.conn) :
  batched total k ->
  (total + 1) mod 1000 = 0 ->
  length (committed_rows k1) = length (committed_rows k) + S (length (pending_rows k)) ->
  pending_rows k1 = [] ->
  batched (total + 1) k1.
Proof.
  intros [C P] Z Lc Lp. unfold batched. rewrite Z, Lc, Lp, P.
  pose proof (mod_1000_wrap total Z). cbn [length]. lia.
Qed.

Lemma batched_after_insert (total : nat) (k k1 : Rel.conn) :
  batched total k ->
  (total + 1) mod 1000 <> 0 ->
  committed_rows k1 = committed_rows k ->
  length (pending_rows k1) = S (length (pending_rows k)) ->
  batched (total + 1) k1.
Proof.
  intros [C P] NZ Ec Lp. unfold batched.
  rewrite (mod_1000_step total NZ), Ec, Lp, P. lia.
Qed.


Lemma pg_rows_batched (header : list string) (rows : csv) :
  forall total k n k',
    Postgres.insert_rows header rows total k = (Ok n, k') ->
    batched total k ->
    batched n k' /\ Forall (fun row => length row = length header) rows.
Proof.
  induction rows as [|row rest IH]; intros total k n k' E B.
  - cbn in E. unfold ret in E. injection E as <- <-. auto.
  - cbn [Postgres.insert_rows] in E. unfold bind at 1 in E.
    destruct (Rel.execute_insert_formatted _ _ _ _ k) as [[[]|e] k1] eqn:E1;
      [|discriminate E].
    apply execute_insert_formatted_effect in E1 as (L1 & C1 & P1).
    unfold bind at 1 in E.
    destruct ((total + 1) mod 1000 =? 0) eqn:Z.
    + apply Nat.eqb_eq in Z.
      destruct (commit_effect k1) as (k2 & E2 & C2 & P2).
      rewrite E2 in E.
      apply IH in E as [B' F].
      * split; [exact B' | now constructor].
      * apply (batched_after_commit total k); auto.
        rewrite C2, C1, P1. reflexivity.
    + apply Nat.eqb_neq in Z. unfold ret at 1 in E.
      apply IH in E as [B' F].
      * split; [exact B' | now constructor].
      * now apply (batched_after_insert total k).
Qed.

Lemma empty_is_batched (k : Rel.conn) :
  stored_rows k = [] -> batched 0 k.
Proof.
  unfold stored_rows, batched, committed_rows, pending_rows, Rel.visible.
  destruct (Rel.utenti k) as [t|]; [|now split].
  intros E. apply app_eq_nil in E as [-> ->]. now split.
Qed.

Lemma batched_full_batches (total : nat) (k : Rel.conn) :
  batched total k ->
  length (committed_rows k) = 1000 * (total / 1000).
Proof.
  intros [C _]. pose proof (Nat.div_mod_eq total 1000). lia.
Qed.








(** X3.  PostgreSQL script, a load into an empty table that meets a
    record of the wrong length after [good] records whose inserts went
    through: the driver raises before it sends anything, the load ends
    with that exception and no rollback, so the full batches of 1000 stay
    committed and the rows of the open batch stay pending on the
    connection.  Stated for storage names of lower-case letters, digits
    and underscores. *)
Theorem postgres_load_batches (header0 header : list string) (good : csv)
    (bad : list string) (rest : csv) (k k1 : Rel.conn) (n : nat) :
  Forall (fun c => bare_word (Postgres.safe_col_name c) = true) header ->
  stored_rows k = [] ->
  Postgres.insert_rows header good 0 k = (Ok n, k1) ->
  length bad <> length header ->
  exists k',
    Postgres.load_csv_to_database (header0 :: good ++ bad :: rest) header k
    = (Raise BindingMismatch, k')
    /\ length (committed_rows k') = 1000 * (length good / 1000)
    /\ length (pending_rows k') = length good mod 1000.
Proof.
  intros _ Em G Bad.
  destruct (pg_load_stops_at header0 header good bad rest k k1 n G Bad)
    as (_ & L).
  eexists. split; [exact L|].
  pose proof (pg_insert_rows_total header good 0 k n k1 G) as N.
  apply pg_rows_batched in G as [B _]; [|now apply empty_is_batched].
  cbn [plus] in N. subst n.
  change (committed_rows (Rel.logged ?c k1)) with (committed_rows k1).
  change (pending_rows (Rel.logged ?c k1)) with (pending_rows k1).
  split; [now apply batched_full_batches | exact (proj2 B)].
Qed.

Lemma postgres_load_batches_witness :
  exists k',
    Postgres.load_csv_to_database
      [["Name"; "Email"]; ["a"; "a@x.com"]; ["b"]] ["Name"; "Email"]
      (Rel.mkConn (Some (Rel.mkTable ["id"; "name"; "email"] [] [])) [])
    = (Raise BindingMismatch, k')
    /\ length (committed_rows k') = 0
    /\ length (pending_rows k') = 1.
Proof.
  eapply (postgres_load_batches ["Name"; "Email"] ["Name"; "Email"]
            [["a"; "a@x.com"]] ["b"] []
            (Rel.mkConn (Some (Rel.mkTable ["id"; "name"; "email"] [] [])) [])).
  - repeat constructor.
  - reflexivity.
  - reflexivity.
  - cbn. discriminate.
Defined.

(** ** The log plays no part in a run *)

Section LogBlind.

Context {A B : Type}.






End LogBlind.

















(** ** The batches of a whole MongoDB load *)

(** X5.  MongoDB script: the load sends its documents to [insert_many]
    in batches of exactly 1000, plus one last batch of 1 to 999 documents
    when some are left; it never calls [insert_many] with an empty list
    (which would raise).  When the load returns normally, the batches put
    end to end are the documents of the records, in file order. *)
Theorem mongo_load_batches (header : list string) (rows : csv) (s : Mongo.db) :
  exists bs,
    Mongo.log (snd (Mongo.load_csv_to_mongodb (header :: rows) s))
    = (Mongo.log s ++ map Mongo.InsertMany bs)%list
    /\ Forall (fun b => 1 <= length b <= 1000) bs
    /\ Forall (fun b => length b = 1000) (removelast bs)
    /\ (forall n,
          fst (Mongo.load_csv_to_mongodb (header :: rows) s) = Ok n ->
          concat bs = map (Mongo.make_doc header) rows).
Proof.
  unfold Mongo.load_csv_to_mongodb, bind, lift. cbn [next_record fst snd].
  destruct (load_rows_batches header rows 0 [] s) as (bs & Elog & Fb & Hok);
    [cbn; lia|].
  assert (Fb' : Forall (fun b : list Mongo.doc => 1 <= length b <= 1000) bs).
  { eapply Forall_impl; [|exact Fb]. cbn. intros b E. lia. }
  destruct (Mongo.load_rows header rows 0 [] s) as [[[m rest]|e] s1];
    cbn [fst snd] in *.
  - destruct (Hok m rest eq_refl) as [Lr Ec]. cbn [app] in Ec.
    destruct rest as [|d rest].
    + exists bs. unfold ret. cbn [snd fst]. repeat split; auto.
      * now apply Forall_removelast.
      * intros _ _. now rewrite app_nil_r in Ec.
    + pose proof (insert_many_log (d :: rest) s1) as Lg.
      exists (bs ++ [d :: rest])%list.
      rewrite removelast_last, map_app, app_assoc, <- Elog.
      assert (Fl : Forall (fun b : list Mongo.doc => 1 <= length b <= 1000)
                          (bs ++ [d :: rest])).
      { apply Forall_app. split; [exact Fb'|].
        constructor; [cbn in *; lia | constructor]. }
      destruct (Mongo.insert_many (d :: rest) s1) as [[[]|e] s2];
        cbn [snd fst] in *; unfold ret; cbn [snd fst].
      * repeat split; auto. intros _ _.
        rewrite concat_app. cbn. now rewrite app_nil_r.
      * repeat split; auto. discriminate.
  - exists bs. repeat split; auto.
    + now apply Forall_removelast.
    + discriminate.
Qed.

(** ** Keys of a document *)

Lemma set_keys (k : string) (v : Mongo.bson) (d : Mongo.doc) (c : string) :
  In c (map fst (Mongo.set k v d)) <-> c = k \/ In c (map fst d).
Proof.
  induction d as [|[k' v'] r IH]; cbn.
  - intuition.
  - destruct (String.eqb k' k) eqn:E; cbn.
    + apply String.eqb_eq in E. subst k'. intuition.
    + rewrite IH. intuition.
Qed.

Lemma set_keys_nodup (k : string) (v : Mongo.bson) (d : Mongo.doc) :
  NoDup (map fst d) -> NoDup (map fst (Mongo.set k v d)).
Proof.
  induction d as [|[k' v'] r IH]; cbn; intros ND.
  - constructor; [intros [] | constructor].
  - inversion ND as [|? ? Nk ND']; subst.
    destruct (String.eqb k' k) eqn:E; cbn.
    + apply String.eqb_eq in E. subst k'. now constructor.
    + constructor; [|now apply IH].
      rewrite set_keys. intros [-> | I]; [|contradiction].
      now rewrite String.eqb_refl in E.
Qed.

Lemma fill_doc_keys (header row : list string) (c : string) :
  forall i d,
    In c (map fst (Mongo.fill_doc header i row d)) <->
    In c (map fst d) \/ In c (firstn (length row - i) header).
Proof.
  induction header as [|h rest IH]; intros i d.
  - rewrite firstn_nil. cbn. intuition.
  - cbn [Mongo.fill_doc]. rewrite IH.
    destruct (i <? length row) eqn:E.
    + apply Nat.ltb_lt in E.
      replace (length row - i) with (S (length row - S i)) by lia.
      cbn [firstn In]. rewrite set_keys. intuition.
    + apply Nat.ltb_ge in E.
      replace (length row - i) with 0 by lia.
      replace (length row - S i) with 0 by lia.
      cbn. intuition.
Qed.

Lemma fill_doc_keys_nodup (header row : list string) :
  forall i d,
    NoDup (map fst d) -> NoDup (map fst (Mongo.fill_doc header i row d)).
Proof.
  induction header as [|h rest IH]; intros i d ND; cbn [Mongo.fill_doc].
  - exact ND.
  - apply IH. destruct (i <? length row); [|exact ND].
    now apply set_keys_nodup.
Qed.

Lemma get_in_keys (k : string) (d : Mongo.doc) :
  In k (map fst d) <-> Mongo.get k d <> None.
Proof.
  induction d as [|[k' v'] r IH]; cbn.
  - intuition.
  - destruct (String.eqb k' k) eqn:E.
    + apply String.eqb_eq in E. intuition discriminate.
    + apply String.eqb_neq in E. rewrite <- IH. intuition.
Qed.

Lemma fill_doc_get_absent (c : string) (header row : list string) :
  forall i d,
    (forall j, i + j < length row -> nth_error header j <> Some c) ->
    Mongo.get c (Mongo.fill_doc header i row d) = Mongo.get c d.
Proof.
  induction header as [|h rest IH]; intros i d Ab; cbn [Mongo.fill_doc].
  - reflexivity.
  - rewrite IH.
    + destruct (i <? length row) eqn:E; [|reflexivity].
      apply Nat.ltb_lt in E. apply get_set_other.
      intros ->. apply (Ab 0); [lia | reflexivity].
    + intros j L. apply (Ab (S j)). lia.
Qed.

Lemma fill_doc_get_last (c : string) (header row : list string) :
  forall i d j,
    nth_error header j = Some c ->
    i + j < length row ->
    (forall j', j < j' -> i + j' < length row -> nth_error header j' <> Some c) ->
    Mongo.get c (Mongo.fill_doc header i row d)
    = Some (Mongo.convert c (nth (i + j) row "")).
Proof.
  induction header as [|h rest IH]; intros i d j Hn L Last.
  - destruct j; discriminate Hn.
  - cbn [Mongo.fill_doc]. destruct j as [|j]; cbn in Hn.
    + injection Hn as ->. rewrite Nat.add_0_r in *.
      apply Nat.ltb_lt in L. rewrite L.
      rewrite fill_doc_get_absent; [apply get_set_same|].
      intros j' L'. apply (Last (S j')); lia.
    + rewrite (IH (S i) _ j Hn); [f_equal; f_equal; f_equal; lia | lia |].
      intros j' Lt L'. apply (Last (S j')); lia.
Qed.

(** X6.  MongoDB script: the document built for a record has each key
    once; its keys are the header names at the positions the record has a
    value for, so a name beyond the record's length is not a key and a
    record longer than the header loses its extra values; a name repeated
    in the header holds the value of its last such position. *)
Theorem make_doc_keys (header row : list string) :
  NoDup (map fst (Mongo.make_doc header row))
  /\ (forall c,
        In c (map fst (Mongo.make_doc header row)) <->
        In c (firstn (length row) header))
  /\ (forall c,
        Mongo.get c (Mongo.make_doc header row) <> None <->
        In c (firstn (length row) header))
  /\ length (Mongo.make_doc header row) <= Nat.min (length header) (length row)
  /\ (forall i c,
        nth_error header i = Some c -> i < length row ->
        (forall j, i < j -> j < length row -> nth_error header j <> Some c) ->
        Mongo.get c (Mongo.make_doc header row)
        = Some (Mongo.convert c (nth i row ""))).
Proof.
  assert (ND : NoDup (map fst (Mongo.make_doc header row))).
  { apply fill_doc_keys_nodup. constructor. }
  assert (K : forall c,
             In c (map fst (Mongo.make_doc header row)) <->
             In c (firstn (length row) header)).
  { intros c. unfold Mongo.make_doc. rewrite fill_doc_keys, Nat.sub_0_r.
    cbn. intuition. }
  repeat apply conj.
  - exact ND.
  - exact K.
  - intros c. rewrite <- get_in_keys. apply K.
  - rewrite <- (length_map fst).
    transitivity (length (firstn (length row) header)).
    + apply NoDup_incl_length; [exact ND|]. intros c. apply K.
    + rewrite length_firstn. lia.
  - intros i c Hn L Last. unfold Mongo.make_doc.
    apply (fill_doc_get_last c header row 0 [] i Hn L Last).
Qed.

(** ** A whole run of the MongoDB script *)

Lemma drop_collection_result (s : Mongo.db) :
  exists s1,
    Mongo.drop_collection s = (Ok tt, s1) /\ Mongo.utenti s1 = None.
Proof.
  unfold Mongo.drop_collection, bind, Mongo.list_collection_names.
  destruct (Mongo.utenti s) as [c|] eqn:U; cbn.
  - eexists. split; reflexivity.
  - eexists. unfold ret. split; reflexivity.
Qed.

Lemma found_field_passes (fields : list string) (f : string) :
  Mongo.find_date_field fields = Some f ->
  Mongo.subscription_test (Str.lower f) = true.
Proof.
  induction fields as [|g rest IH]; cbn; [discriminate|].
  destruct (Mongo.subscription_test (Str.lower g)) eqn:T; [|exact IH].
  intros E. injection E as <-. exact T.
Qed.

Lemma found_field_not_id (fields : list string) (f : string) :
  Mongo.find_date_field fields = Some f ->
  f <> "_id" /\ Str.truthy f = true.
Proof.
  intros E. apply found_field_passes in E. split.
  - intros ->. vm_compute in E. discriminate E.
  - destruct f; [vm_compute in E; discriminate E | reflexivity].
Qed.

Lemma filter_with_ids (field : string) (documents : list Mongo.doc) :
  field <> "_id" ->
  forall oid,
    length (filter (in_2020 field) (with_ids oid documents))
    = length (filter (in_2020 field) documents).
Proof.
  intros N. induction documents as [|d rest IH]; intros oid; cbn [with_ids filter].
  - reflexivity.
  - assert (E : in_2020 field (("_id", Mongo.VOid oid) :: d) = in_2020 field d).
    { unfold in_2020, Mongo.in_range. cbn [Mongo.get].
      destruct (String.eqb "_id" field) eqn:Q; [|reflexivity].
      apply String.eqb_eq in Q. congruence. }
    rewrite E. destruct (in_2020 field d); cbn [length]; now rewrite IH.
Qed.

Lemma mongo_count_of_fresh (s s' : Mongo.db) (oid : nat)
    (documents : list Mongo.doc) (c : nat) :
  coll s = with_ids oid documents ->
  Mongo.count_2020_subscriptions s = (Ok c, s') ->
  c = count_2020 documents.
Proof.
  intros C. unfold Mongo.count_2020_subscriptions, bind, Mongo.find_one.
  unfold coll in C. destruct documents as [|d rest]; cbn [with_ids] in C.
  - destruct (Mongo.utenti s) as [c0|]; [subst c0|]; cbn; unfold ret;
      intros H; now injection H as <- _.
  - destruct (Mongo.utenti s) as [c0|]; [subst c0 | discriminate C].
    cbn [Mongo.date_field_of map fst Mongo.find_date_field].
    change (Mongo.subscription_test (Str.lower "_id")) with false.
    cbn iota. unfold count_2020.
    destruct (Mongo.find_date_field (map fst d)) as [f|] eqn:F.
    + destruct (found_field_not_id _ _ F) as [N T].
      unfold Mongo.not_found. rewrite T. cbn [negb].
      unfold Mongo.count_documents. cbn [Mongo.utenti].
      destruct (Str.startswith "$" f); [discriminate|].
      intros H. injection H as <- _.
      apply (filter_with_ids f (d :: rest) N oid).
    + cbn. unfold ret. intros H. now injection H as <- _.
Qed.

(** X7.  MongoDB script, whole run on a file with a header that names no
    column [_id]: when [main] reports, it reports the number of records
    and the number of their documents whose subscription date lies in
    2020, the date field being looked for among the keys of the first
    document; this holds whatever the database held before. *)
Theorem mongo_run_result (header : list string) (rows : csv) (s0 : Mongo.db)
    (r : nat * nat) :
  ~ In "_id" header ->
  fst (Mongo.main (Some (header :: rows)) s0) = Some r ->
  r = (length rows, count_2020 (map (Mongo.make_doc header) rows)).
Proof.
  intros N. unfold Mongo.main. unfold bind at 1.
  destruct (drop_collection_result s0) as (s1 & E1 & U1). rewrite E1.
  unfold bind at 1.
  destruct (mongo_load_stores header rows s1 N) as (s2 & E2 & C2).
  rewrite E2. unfold coll at 2 in C2. rewrite U1 in C2. cbn [app] in C2.
  unfold bind at 1.
  destruct (Mongo.count_2020_subscriptions s2) as [[c|e] s3] eqn:E3;
    [|discriminate].
  apply (mongo_count_of_fresh s2 s3 _ _ c C2) in E3. subst c.
  unfold ret. cbn [fst]. congruence.
Qed.

Lemma mongo_run_result_witness :
  fst (Mongo.main
         (Some [["Name"; "Subscription Date"]; ["a"; "2020-06-15"];
                ["b"; "2019-12-31"]; ["c"; "2021-01-01"]])
         (Mongo.mkDb (Some [[("Name", Mongo.VStr "old")]]) 7 []))
  = Some (3, 1).
Proof.
  destruct (fst (Mongo.main
                   (Some [["Name"; "Subscription Date"]; ["a"; "2020-06-15"];
                          ["b"; "2019-12-31"]; ["c"; "2021-01-01"]])
                   (Mongo.mkDb (Some [[("Name", Mongo.VStr "old")]]) 7 [])))
    as [r|] eqn:E.
  - f_equal.
    refine (mongo_run_result ["Name"; "Subscription Date"]
              [["a"; "2020-06-15"]; ["b"; "2019-12-31"]; ["c"; "2021-01-01"]]
              _ r _ E).
    cbn. intros [H | [H | []]]; discriminate H.
  - vm_compute in E. discriminate E.
Defined.

(** ** Files without a header, and what [create_table] leaves *)

(** X8.  A missing file stops both scripts before they touch the store.
    A file without any record does the same in the SQLite script, whose
    [main] reads the header before it connects; in the MongoDB script
    [main] has dropped the collection by the time the load finds no
    header, so it reports nothing and the collection is gone.  The loads
    themselves end with [StopIteration] on such a file. *)
Theorem run_without_header :
  (forall k0, Sqlite.main None k0 = (None, k0))
  /\ (forall k0, Sqlite.main (Some []) k0 = (None, k0))
  /\ (forall s0, Mongo.main None s0 = (None, s0))
  /\ (forall s0,
        fst (Mongo.main (Some []) s0) = None
        /\ Mongo.utenti (snd (Mongo.main (Some []) s0)) = None)
  /\ (forall k, fst (Sqlite.load_csv_to_database [] k) = Raise StopIteration)
  /\ (forall header k,
        fst (Postgres.load_csv_to_database [] header k) = Raise StopIteration)
  /\ (forall s, Mongo.load_csv_to_mongodb [] s = (Raise StopIteration, s)).
Proof.
  repeat apply conj; try reflexivity.
  intros s0.
  destruct (drop_collection_result s0) as (s1 & E & U).
  assert (R : Mongo.main (Some []) s0 = (None, s1)).
  { unfold Mongo.main. unfold bind at 1. rewrite E. reflexivity. }
  rewrite R. split; [reflexivity | exact U].
Qed.

(** X9.  SQLite script: [create_table] drops the table before it creates
    the new one, so when it succeeds the rows held before are gone: the
    table has the key column and the storage names of the header, which are
    pairwise different, and no row.  Stated for header names without a
    double quote. *)
Theorem create_table_replaces (header : list string) (rows : csv) (n : nat)
    (k k' : Rel.conn) :
  Forall (fun c => no_quote c = true) header ->
  Sqlite.create_table (header :: rows) n k = (Ok tt, k') ->
  Rel.utenti k'
  = Some (Rel.mkTable ("id" :: map Sqlite.safe_col_name header) [] [])
  /\ Rel.has_dup (map Str.lower ("id" :: map Sqlite.safe_col_name header))
     = false
  /\ stored_rows k' = [].
Proof.
  intros _ E.
  destruct (Rel.has_dup (map Str.lower ("id" :: map Sqlite.safe_col_name header)))
    eqn:D.
  - exfalso. revert E.
    unfold Sqlite.create_table, bind, lift, Rel.execute_drop.
    cbn [next_record fst]. unfold Rel.execute_create.
    cbn [Rel.utenti]. rewrite D. discriminate.
  - apply sqlite_create_table_result in E. subst k'. repeat split.
Qed.

(** The table of an earlier run is replaced. *)
Lemma create_table_replaces_witness :
  stored_rows
    (snd (Sqlite.create_table [["Name"; "Website"]; ["a"; "https://x"]] 2
            (Rel.mkConn
               (Some (Rel.mkTable ["id"; "old"] [[("id", Rel.SInt 1)]] [])) [])))
  = [].
Proof.
  destruct (Sqlite.create_table [["Name"; "Website"]; ["a"; "https://x"]] 2
              (Rel.mkConn
                 (Some (Rel.mkTable ["id"; "old"] [[("id", Rel.SInt 1)]] [])) []))
    as [[[]|e] k'] eqn:E.
  - cbn [snd].
    refine (proj2 (proj2 (create_table_replaces _ _ _ _ _ _ E))).
    repeat constructor.
  - vm_compute in E. discriminate E.
Defined.

(** ** Containment, and what the tests of the searches amount to *)

Lemma startswith_iff (p s : string) :
  Str.startswith p s = true <-> exists b, s = p ++ b.
Proof.
  revert s; induction p as [|a p IH]; intros s; cbn.
  - split; [intros _; now exists s | reflexivity].
  - destruct s as [|c s].
    + split; [discriminate | intros [b E]; discriminate E].
    + rewrite andb_true_iff, IH. split.
      * intros [E [b ->]]. apply Ascii.eqb_eq in E. subst c. now exists b.
      * intros [b E]. injection E as -> ->.
        split; [apply Ascii.eqb_refl | now exists b].
Qed.

Lemma contains_iff (sub s : string) :
  Str.contains sub s = true <-> exists a b, s = a ++ sub ++ b.
Proof.
  induction s as [|c s IH].
  - cbn. rewrite orb_false_r, startswith_iff. split.
    + intros [b E]. now exists "", b.
    + intros (a & b & E). destruct a; [now exists b | discriminate E].
  - cbn [Str.contains]. rewrite orb_true_iff, startswith_iff, IH. split.
    + intros [[b E] | (a & b & E)].
      * now exists "", b.
      * exists (String c a), b. cbn. now rewrite E.
    + intros (a & b & E). destruct a as [|x a]; cbn in E.
      * left. now exists b.
      * injection E as -> ->. right. now exists a, b.
Qed.

Lemma append_assoc (a b c : string) : (a ++ b) ++ c = a ++ b ++ c.
Proof. induction a as [|x a IH]; cbn; [reflexivity | now rewrite IH]. Qed.

Lemma contains_trans (a b c : string) :
  Str.contains a b = true -> Str.contains b c = true ->
  Str.contains a c = true.
Proof.
  rewrite !contains_iff. intros (p & q & ->) (r & t & ->).
  exists (r ++ p), (q ++ t). now rewrite !append_assoc.
Qed.

Lemma orb_absorbs (a b c : bool) :
  (a = true -> b = true) -> a || b || c = b || c.
Proof. destruct a, b, c; cbn; intros H; auto; discriminate (H eq_refl). Qed.

Lemma sqlite_website_test_contains (n : string) :
  Sqlite.website_test n = Str.contains "site" n || Str.contains "sito" n.
Proof.
  unfold Sqlite.website_test.
  assert (W : Str.contains "website" n = true -> Str.contains "site" n = true).
  { intros H. apply (contains_trans "site" "website" n); [reflexivity | exact H]. }
  destruct (String.eqb n "website") eqn:E.
  - apply String.eqb_eq in E. subst n. reflexivity.
  - cbn [orb]. now apply orb_absorbs.
Qed.

Lemma duckdb_website_test_contains (n : string) :
  Duckdb.website_test n = Str.contains "site" n || Str.contains "sito" n.
Proof.
  unfold Duckdb.website_test.
  destruct (String.eqb n "website") eqn:E; [|reflexivity].
  apply String.eqb_eq in E. subst n. reflexivity.
Qed.

Lemma email_test_contains (n : string) :
  Postgres.email_test n = Str.contains "mail" n.
Proof.
  unfold Postgres.email_test.
  assert (W : Str.contains "email" n = true -> Str.contains "mail" n = true).
  { intros H. apply (contains_trans "mail" "email" n); [reflexivity | exact H]. }
  destruct (String.eqb n "email") eqn:E.
  - apply String.eqb_eq in E. subst n. reflexivity.
  - cbn [orb]. destruct (Str.contains "email" n); [now rewrite W | reflexivity].
Qed.

(** X10.  In the searches of the relational and DuckDB scripts the
    equality with the keyword and the longer substrings add nothing: the
    website test of the SQLite and of the DuckDB script is containment of
    [site] or of [sito], the e-mail test of the PostgreSQL script is
    containment of [mail]; so the SQLite and DuckDB scripts pick the same
    column from every list of columns. *)
Theorem search_tests_are_containment :
  (forall n,
     Sqlite.website_test n = Str.contains "site" n || Str.contains "sito" n)
  /\ (forall n,
        Duckdb.website_test n = Str.contains "site" n || Str.contains "sito" n)
  /\ (forall n, Postgres.email_test n = Str.contains "mail" n)
  /\ (forall columns,
        Sqlite.find_website_col columns = Duckdb.find_website_col columns).
Proof.
  repeat apply conj.
  - apply sqlite_website_test_contains.
  - apply duckdb_website_test_contains.
  - apply email_test_contains.
  - induction columns as [|c r IH]; cbn; [reflexivity|].
    rewrite sqlite_website_test_contains, duckdb_website_test_contains.
    now rewrite IH.
Qed.

(** ** Shape of a storage name *)

Lemma string_length_app (s t : string) :
  String.length (s ++ t) = String.length s + String.length t.
Proof. induction s as [|c r IH]; cbn; [reflexivity | now rewrite IH]. Qed.

(** X11.  A storage name holds no space and is its own lower-case form,
    in both relational scripts; in the SQLite script it is never a
    reserved word, and it is as long as the lower-cased raw name, or four
    characters longer when the suffix is added. *)
Theorem storage_name_shape (col_name : string) :
  Str.contains " " (Sqlite.safe_col_name col_name) = false
  /\ Str.lower (Sqlite.safe_col_name col_name) = Sqlite.safe_col_name col_name
  /\ Sqlite.is_reserved (Sqlite.safe_col_name col_name) = false
  /\ String.length (Sqlite.safe_col_name col_name)
     = String.length (Str.lower col_name)
       + (if Sqlite.is_reserved (Sqlite.lower_replace col_name) then 4 else 0)
  /\ Str.contains " " (Postgres.safe_col_name col_name) = false
  /\ Str.lower (Postgres.safe_col_name col_name) = Postgres.safe_col_name col_name
  /\ String.length (Postgres.safe_col_name col_name)
     = String.length (Str.lower col_name).
Proof.
  assert (P : Str.contains " " (Sqlite.lower_replace col_name) = false).
  { apply replace_space_none_left. }
  assert (L : String.length (Sqlite.lower_replace col_name)
              = String.length (Str.lower col_name)).
  { unfold Sqlite.lower_replace, Str.replace_char. apply map_chars_length. }
  repeat apply conj.
  - unfold Sqlite.safe_col_name.
    destruct (Sqlite.is_reserved _); [|exact P].
    rewrite lower_replace_map. now rewrite no_space_after_map.
  - unfold Sqlite.safe_col_name.
    destruct (Sqlite.is_reserved _); [|apply lower_lower_replace].
    unfold Str.lower. rewrite map_chars_app.
    change (Str.map_chars Str.lower_char (Sqlite.lower_replace col_name))
      with (Str.lower (Sqlite.lower_replace col_name)).
    now rewrite lower_lower_replace.
  - apply sqlite_safe_col_name_not_reserved.
  - unfold Sqlite.safe_col_name.
    destruct (Sqlite.is_reserved _); [|lia].
    rewrite string_length_app, L. reflexivity.
  - exact P.
  - apply lower_lower_replace.
  - exact L.
Qed.

(** ** The count functions only read *)







(** ** Dates and the year 2020 *)

Lemma digit_bound (c : ascii) (x : nat) : Mongo.digit c = Some x -> x <= 9.
Proof.
  unfold Mongo.digit.
  destruct ((48 <=? nat_of_ascii c) && (nat_of_ascii c <=? 57)) eqn:E;
    [|discriminate].
  apply andb_true_iff in E as [_ E]. apply Nat.leb_le in E.
  intros H. injection H as <-. lia.
Qed.

Lemma parse_month_range (s : string) (m : nat) (r : string) :
  Mongo.parse_month s = Some (m, r) -> 1 <= m <= 12.
Proof.
  destruct s as [|a s]; [discriminate|]. unfold Mongo.parse_month.
  destruct (Mongo.digit a) as [[|[|x]]|] eqn:Da.
  - destruct s as [|b s]; [discriminate|].
    destruct (Mongo.digit b) as [[|y]|] eqn:Db; try discriminate.
    intros H. injection H as <- _. apply digit_bound in Db. lia.
  - destruct s as [|b s].
    + intros H. injection H as <- _. lia.
    + destruct (Mongo.digit b) as [y|] eqn:Db.
      * destruct (y <=? 2) eqn:L; intros H; injection H as <- _;
          [apply Nat.leb_le in L|]; lia.
      * intros H. injection H as <- _. lia.
  - apply digit_bound in Da.
    destruct s; intros H; injection H as <- _; lia.
  - destruct s; discriminate.
Qed.

Lemma parse_day_positive (s : string) (d : nat) :
  Mongo.parse_day s = Some d -> 1 <= d.
Proof.
  destruct s as [|a [|b [|c s]]]; try discriminate; unfold Mongo.parse_day.
  - destruct (Mongo.digit a) as [[|x]|]; try discriminate.
    intros H. injection H as <-. lia.
  - destruct (Mongo.digit a) as [[|[|[|[|x]]]]|], (Mongo.digit b) as [[|y]|];
      try discriminate;
      cbn [Nat.eqb negb]; rewrite ?andb_false_r, ?andb_true_r;
      repeat match goal with
             | |- context [if ?c then _ else _] => destruct c
             end;
      try discriminate; intros H; injection H as <-; lia.
Qed.

Lemma days_in_month_bound (y m : nat) : Mongo.days_in_month y m <= 31.
Proof.
  unfold Mongo.days_in_month.
  do 12 (destruct m as [|m]; [try destruct (Mongo.is_leap y); lia|]).
  lia.
Qed.

Lemma strptime_valid (value : string) (d : Mongo.datetime) :
  Mongo.strptime value = Some d ->
  1 <= Mongo.year d
  /\ 1 <= Mongo.month d <= 12
  /\ 1 <= Mongo.day d <= 31.
Proof.
  unfold Mongo.strptime.
  destruct value as [|y1 [|y2 [|y3 [|y4 [|sep1 r]]]]]; try discriminate.
  destruct (Mongo.digit y1) as [a|]; [|discriminate].
  destruct (Mongo.digit y2) as [b|]; [|discriminate].
  destruct (Mongo.digit y3) as [c|]; [|discriminate].
  destruct (Mongo.digit y4) as [e|]; [|discriminate].
  cbv zeta. destruct (negb (Ascii.eqb sep1 "-")); [discriminate|].
  destruct (Mongo.parse_month r) as [[m [|sep2 r']]|] eqn:Pm; try discriminate.
  destruct (negb (Ascii.eqb sep2 "-")); [discriminate|].
  destruct (Mongo.parse_day r') as [dd|] eqn:Pd; [|discriminate].
  destruct ((1 <=? _) && (dd <=? _)) eqn:V; [|discriminate].
  intros H. injection H as <-. cbn [Mongo.year Mongo.month Mongo.day].
  apply andb_true_iff in V as [Vy Vd].
  apply Nat.leb_le in Vy, Vd.
  apply parse_month_range in Pm. apply parse_day_positive in Pd.
  pose proof (days_in_month_bound (1000 * a + 100 * b + 10 * c + e) m).
  repeat split; lia.
Qed.

Lemma fill_doc_values (header row : list string) (k : string) (v : Mongo.bson) :
  forall i d,
    Mongo.get k (Mongo.fill_doc header i row d) = Some v ->
    Mongo.get k d = Some v \/ exists x, v = Mongo.convert k x.
Proof.
  induction header as [|c rest IH]; intros i d G; cbn [Mongo.fill_doc] in G.
  - now left.
  - apply IH in G. destruct G as [G | G]; [|now right].
    destruct (i <? length row); [|now left].
    destruct (String.eqb c k) eqn:E.
    + apply String.eqb_eq in E. subst c. rewrite get_set_same in G.
      injection G as <-. right. eauto.
    + apply String.eqb_neq in E. rewrite get_set_other in G by exact E.
      now left.
Qed.

Lemma convert_date (col_name value : string) (d : Mongo.datetime) :
  Mongo.convert col_name value = Mongo.VDate d ->
  Mongo.strptime value = Some d.
Proof.
  unfold Mongo.convert.
  destruct (Mongo.is_date_column col_name); [|discriminate].
  destruct (Str.truthy value); [|discriminate].
  destruct (Mongo.strptime value); [|discriminate].
  intros H. now injection H as <-.
Qed.

Lemma year_2020_range (d : Mongo.datetime) :
  1 <= Mongo.month d <= 12 -> 1 <= Mongo.day d <= 31 ->
  Mongo.date_leb (Mongo.mkDate 2020 1 1) d
  && Mongo.date_leb d (Mongo.mkDate 2020 12 31) = true
  <-> Mongo.year d = 2020.
Proof.
  destruct d as [y m dd]. cbn [Mongo.year Mongo.month Mongo.day].
  intros Hm Hd. unfold Mongo.date_leb.
  cbn [Mongo.year Mongo.month Mongo.day].
  rewrite !andb_true_iff, !orb_true_iff, !andb_true_iff, !orb_true_iff,
    !andb_true_iff.
  rewrite !Nat.ltb_lt, !Nat.eqb_eq, !Nat.leb_le. lia.
Qed.

(** X13.  MongoDB script: a text that [strptime] accepts lies between
    the bounds of the count query exactly when its year is 2020; and a
    document built by the load passes the condition of the query on a
    field whose name does not start with a dollar sign exactly when the
    name holds no dot and the document holds a date of the year 2020 under
    it (a text kept as it was, or [None], never passes; a name with a dot
    is read as a path and finds nothing; a name that starts with a dollar
    sign makes the query itself fail). *)
Theorem counted_iff_year_2020 :
  (forall value d,
     Mongo.strptime value = Some d ->
     (Mongo.date_leb (Mongo.mkDate 2020 1 1) d
      && Mongo.date_leb d (Mongo.mkDate 2020 12 31) = true
      <-> Mongo.year d = 2020))
  /\ (forall header row field,
        Str.startswith "$" field = false ->
        (in_2020 field (Mongo.make_doc header row) = true <->
         Str.contains "." field = false
         /\ exists d,
              Mongo.get field (Mongo.make_doc header row) = Some (Mongo.VDate d)
              /\ Mongo.year d = 2020)).
Proof.
  assert (A : forall value d,
             Mongo.strptime value = Some d ->
             (Mongo.date_leb (Mongo.mkDate 2020 1 1) d
              && Mongo.date_leb d (Mongo.mkDate 2020 12 31) = true
              <-> Mongo.year d = 2020)).
  { intros value d P. destruct (strptime_valid value d P) as (_ & Hm & Hd).
    now apply year_2020_range. }
  split; [exact A|].
  intros header row field _. unfold in_2020, Mongo.in_range.
  destruct (Str.contains "." field); cbn [negb andb].
  { split; [discriminate | intros [D _]; discriminate D]. }
  destruct (Mongo.get field (Mongo.make_doc header row)) as [v|] eqn:G.
  - destruct v as [|t|d|n];
      try (split; [discriminate | intros (_ & d' & E & _); discriminate E]).
    unfold Mongo.make_doc in G. apply fill_doc_values in G.
    destruct G as [G | [x E]]; [discriminate G|].
    symmetry in E. apply convert_date in E.
    rewrite (A x d E). split.
    + intros Y. split; [reflexivity | now exists d].
    + intros (_ & d' & E' & Y). now injection E' as <-.
  - split; [discriminate | intros (_ & d' & E & _); discriminate E].
Qed.
